(** * Ximea camera driver (microscope/cameras/ximea.py)

    A shallow embedding of the camera configuration and acquisition-state
    core of [XimeaCamera]: the acquisition flag and its abort/enable
    transitions, the scoped disable/enable helpers, the ROI negotiation
    with its quantisation retry, the trigger mapping table, and the
    frame-fetch error filter.

    The vendor SDK (xiapi) is an external collaborator: it appears as an
    arbitrary deterministic device [xi] answering each call either with
    an integer or with a Python exception.  The camera object is a record
    of its mirrored attributes; methods are computations in a state
    monad whose state survives a raised exception, as attribute writes
    do in Python. *)

From Stdlib Require Import ZArith List String Bool Lia.
Import ListNotations.
Local Open Scope string_scope.
Local Open Scope list_scope.
Local Open Scope Z_scope.

(** ** Status codes of [xiapi.Xi_error] *)

Definition _XI_TIMEOUT : Z := 10.
Definition _XI_INVALID_ARGUMENTS : Z := 11.
Definition _XI_NOT_SUPPORTED : Z := 12.
Definition _XI_NOT_IMPLEMENTED : Z := 26.
Definition _XI_ACQUISITION_STOPED : Z := 45.
Definition _XI_UNKNOWN_PARAM : Z := 100.

(** ** Data of the [microscope] package used by the driver *)

(** Modelled from the spec: the enumerations [microscope.TriggerType] and
    [microscope.TriggerMode] are declared in microscope/__init__.py, which
    is not among the sources.  The spec gives them as
    {SOFTWARE, RISING_EDGE, ...} and {ONCE, STROBE, ...}: the members the
    driver refers to are constructors of their own, every further member
    is carried by its name. *)
Inductive TriggerType : Type :=
| SOFTWARE
| RISING_EDGE
| TriggerType_other (name : string).

Inductive TriggerMode : Type :=
| ONCE
| STROBE
| TriggerMode_other (name : string).

(** The [name] attribute of an enumeration member. *)
Definition TriggerType_name (t : TriggerType) : string :=
  match t with
  | SOFTWARE => "SOFTWARE"
  | RISING_EDGE => "RISING_EDGE"
  | TriggerType_other n => n
  end.

Definition TriggerMode_name (m : TriggerMode) : string :=
  match m with
  | ONCE => "ONCE"
  | STROBE => "STROBE"
  | TriggerMode_other n => n
  end.

Definition TriggerType_eqb (a b : TriggerType) : bool :=
  match a, b with
  | SOFTWARE, SOFTWARE => true
  | RISING_EDGE, RISING_EDGE => true
  | TriggerType_other x, TriggerType_other y => String.eqb x y
  | _, _ => false
  end.

Definition TriggerMode_eqb (a b : TriggerMode) : bool :=
  match a, b with
  | ONCE, ONCE => true
  | STROBE, STROBE => true
  | TriggerMode_other x, TriggerMode_other y => String.eqb x y
  | _, _ => false
  end.

(** [microscope.ROI] is the named tuple (left, top, width, height). *)
Record ROI : Type := mkROI { left : Z; top : Z; width : Z; height : Z }.

Definition ROI_eqb (a b : ROI) : bool :=
  (left a =? left b) && (top a =? top b)
  && (width a =? width b) && (height a =? height b).

(** [microscope.Binning] is the named tuple (h, v). *)
Record Binning : Type := mkBinning { h : Z; v : Z }.

Definition Binning_eqb (a b : Binning) : bool :=
  (h a =? h b) && (v a =? v b).

(** ** Python exceptions *)

(** [Xi_error] carries the status code of the SDK; the attribute may be
    missing (see the comment in [_fetch_data]), hence the option. *)
Inductive exn : Type :=
| Xi_error (status : option Z)
| ValueError (roi : ROI) (sensor_shape : Z * Z)
| TypeError (msg : string)
| KeyError
| AttributeError
| ZeroDivisionError
| OverflowError
| RecursionError
| NotImplementedError
| UnsupportedFeatureError (msg : string)
| UnsupportedOperationError (msg : string)
| AssertionError (msg : string)
| OtherException (what : string).

Definition is_Xi_error (e : exn) : bool :=
  match e with Xi_error _ => true | _ => false end.

(** [getattr(err, "status", None) == code] *)
Definition status_is (code : Z) (status : option Z) : bool :=
  match status with
  | Some s => s =? code
  | None => false
  end.

(** What evaluating an expression or calling a method gives: a value,
    or a raised exception. *)
Inductive outcome (A : Type) : Type :=
| Ret (a : A)
| Raise (e : exn).
Arguments Ret {A} a.
Arguments Raise {A} e.

(** ** Python values returned by the public properties *)

Inductive pyval : Type :=
| PyStr (s : string)
| PyTriggerType (t : TriggerType)
| PyTriggerMode (m : TriggerMode).

(** ** Integer arithmetic of Python used by the ROI retry *)

(** The integer nearest to the exact quotient of [a] by [b] ([b <> 0]),
    the even one of the two when the quotient lies half-way between
    them.  A rounding of the exact rational number: the floating-point
    computations below are written with it, and statements use it to say
    what they yield. *)
Definition nearest_even_quotient (a b : Z) : Z :=
  let q := a / b in
  let r := a mod b in
  if 2 * Z.abs r <? Z.abs b then q
  else if Z.abs b <? 2 * Z.abs r then q + 1
  else if Z.even q then q else q + 1.

(** The exponent of the binade of the quotient of two positive integers:
    the [e] with [2 ^ e <= A / B < 2 ^ (e + 1)]. *)
Definition quotient_exponent (A B : Z) : Z :=
  let e0 := Z.log2 A - Z.log2 B in
  if (if 0 <=? e0 then B * 2 ^ e0 <=? A else B <=? A * 2 ^ (- e0))
  then e0 else e0 - 1.

(** The exact quotient [A / B] counted in units of [2 ^ t], to the
    nearest unit, ties to the even count. *)
Definition in_units (A B t : Z) : Z :=
  if 0 <=? t then nearest_even_quotient A (B * 2 ^ t)
  else nearest_even_quotient (A * 2 ^ (- t)) B.

(** [A / B] for ints [A >= 0] and [B > 0]: true division gives the
    binary64 float nearest to the exact quotient, ties to the even
    significand.  The float is [m * 2 ^ t]: a quotient in the binade of
    exponent [e] is counted in units of [2 ^ (e - 52)] (53 significant
    bits), and in the subnormal unit [2 ^ (-1074)] when that is larger.
    [None] stands for the [OverflowError] of a quotient that rounds to
    [2 ^ 1024] or beyond. *)
Definition true_div (A B : Z) : option (Z * Z) :=
  if A =? 0 then Some (0, 0)
  else
    let t := Z.max (quotient_exponent A B - 52) (-1074) in
    let m := in_units A B t in
    if (0 <=? t) && (2 ^ 1024 <=? m * 2 ^ t) then None else Some (m, t).

(** [round(x)] for the non-negative float [x = m * 2 ^ t]: the nearest
    integer, ties to the even one. *)
Definition round_float (m t : Z) : Z :=
  if 0 <=? t then m * 2 ^ t else nearest_even_quotient m (2 ^ (- t)).

(** [round(a / b)] for ints [a] and [b <> 0]; division and rounding are
    symmetric in the sign.  [None] stands for the [OverflowError]. *)
Definition round_true_div (a b : Z) : option Z :=
  match true_div (Z.abs a) (Z.abs b) with
  | Some (m, t) => Some (Z.sgn a * Z.sgn b * round_float m t)
  | None => None
  end.

(** [round(x / incr) * incr if (x % incr) != 0 else x]; the condition
    is evaluated first and divides by [incr]. *)
Definition quantized (x incr : Z) : outcome Z :=
  if incr =? 0 then Raise ZeroDivisionError
  else if negb (x mod incr =? 0) then
    match round_true_div x incr with
    | Some r => Ret (r * incr)
    | None => Raise OverflowError
    end
  else Ret x.

(** ** Dictionaries *)

Section Dict.
Context {K V : Type} (eqb : K -> K -> bool).

(** [d[k] = v]: an existing key keeps its place and gets the new value. *)
Fixpoint dict_set (k : K) (x : V) (d : list (K * V)) : list (K * V) :=
  match d with
  | [] => [(k, x)]
  | (k', x') :: d' =>
      if eqb k k' then (k', x) :: d' else (k', x') :: dict_set k x d'
  end.

(** A dict display evaluates its items in order, each one stored with
    [dict_set]; a repeated key keeps the last value. *)
Definition dict_literal (items : list (K * V)) : list (K * V) :=
  fold_left (fun d kv => dict_set (fst kv) (snd kv) d) items [].

(** [d[k]], [None] standing for the [KeyError]. *)
Fixpoint dict_get (k : K) (d : list (K * V)) : option V :=
  match d with
  | [] => None
  | (k', x) :: d' => if eqb k k' then Some x else dict_get k d'
  end.
End Dict.

Definition trigger_key_eqb (a b : TriggerType * TriggerMode) : bool :=
  TriggerType_eqb (fst a) (fst b) && TriggerMode_eqb (snd a) (snd b).

Definition native_pair_eqb (a b : string * string) : bool :=
  String.eqb (fst a) (fst b) && String.eqb (snd a) (snd b).

Definition TRIGGER_TABLE : list ((TriggerType * TriggerMode) * (string * string)) :=
  dict_literal trigger_key_eqb
    [ ((SOFTWARE, STROBE), ("XI_TRG_OFF", "XI_TRG_SEL_FRAME_START"));
      ((SOFTWARE, ONCE), ("XI_TRG_SOFTWARE", "XI_TRG_SEL_FRAME_START"));
      ((RISING_EDGE, ONCE), ("XI_TRG_EDGE_RISING", "XI_TRG_SEL_FRAME_START"));
      ((RISING_EDGE, ONCE), ("XI_TRG_EDGE_RISING", "XI_TRG_SEL_FRAME_START")) ].

(** ** The SDK handle *)

(** The methods of [xiapi.Camera] (and of the [xiapi.Image] buffer) the
    driver calls. *)
Inductive call : Type :=
| get_number_devices
| open_device
| open_device_by_SN (serial_number : string)
| close_device
| get_width_maximum
| get_height_maximum
| get_offsetX_maximum
| get_offsetY_maximum
| get_temp (param_name : string)
| get_image (timeout : Z)
| get_image_data_numpy
| start_acquisition
| stop_acquisition
| set_exposure_direct (us : Z)
| set_trigger_software (value : Z)
| set_trigger_source (code : string)
| set_trigger_selector (code : string)
| set_offsetX (value : Z)
| set_offsetY (value : Z)
| set_width (value : Z)
| set_height (value : Z)
| get_offsetX
| get_offsetY
| get_width
| get_height
| get_height_increment
| get_width_increment
| get_offsetX_increment
| get_offsetY_increment.

(** What the SDK answers: a value (an integer; the value a setter
    returns is not used, a frame is named by a number) or a raised
    exception. *)
Inductive reply : Type :=
| Ok (value : Z)
| Err (e : exn).

(** One call made on the handle: what was asked, what came back, and the
    value the acquisition flag of the camera had while the call was in
    progress (what a fetch loop running beside it would read). *)
Record event : Type := mkEvent {
  request : call;
  answer : reply;
  acquiring_then : bool
}.

Definition answered_ok (ev : event) : bool :=
  match answer ev with Ok _ => true | Err _ => false end.

Definition is_pulse (ev : event) : bool :=
  match request ev with set_trigger_software _ => true | _ => false end.

(** ** Methods as computations

    A method run takes the object's state to an outcome and a state; the
    state is kept when an exception is raised. *)

Definition M (St A : Type) : Type := St -> outcome A * St.

Section Monad.
Context {St : Type}.

Definition ret {A : Type} (a : A) : M St A := fun c => (Ret a, c).

Definition raise {A : Type} (e : exn) : M St A := fun c => (Raise e, c).

Definition bind {A B : Type} (m : M St A) (k : A -> M St B) : M St B :=
  fun c =>
    match m c with
    | (Ret a, c1) => k a c1
    | (Raise e, c1) => (Raise e, c1)
    end.

Definition gets {A : Type} (f : St -> A) : M St A := fun c => (Ret (f c), c).

(** The evaluation of an expression that reads no attribute. *)
Definition evaluate {A : Type} (o : outcome A) : M St A := fun c => (o, c).

Definition modify (f : St -> St) : M St unit := fun c => (Ret tt, f c).

(** [try: body  except Exception as e: handler e].  An exception
    raised by the handler itself is not handled again. *)
Definition try_except {A : Type} (body : M St A) (handler : exn -> M St A) : M St A :=
  fun c =>
    match body c with
    | (Ret a, c1) => (Ret a, c1)
    | (Raise e, c1) => handler e c1
    end.

(** [try: body  finally: final].  The final block runs on every exit
    of the body; if it raises, its exception is the one that leaves. *)
Definition try_finally {A B : Type} (body : M St A) (final : M St B) : M St A :=
  fun c =>
    match body c with
    | (r, c1) =>
        match final c1 with
        | (Ret _, c2) => (r, c2)
        | (Raise e, c2) => (Raise e, c2)
        end
    end.
End Monad.

Notation "x <- m ;; k" := (bind m (fun x => k))
  (at level 61, m at next level, right associativity).
Notation "m ;; k" := (bind m (fun _ => k))
  (at level 61, right associativity).

(** The device behind the handle: a state and its answer to each call. *)
Class Handle (dev : Type) : Type := xi : dev -> call -> reply * dev.

Section Camera.
Context {dev : Type} {handle : Handle dev}.

(** The attributes of a [XimeaCamera].  [calls] is the history of the
    calls made on the handle, oldest first; it is
    not an attribute of the object but lets statements speak of what
    was sent to the hardware.  [enabled] and [settings] belong to the
    base class.  The [ROI(None, None, None, None)] placeholder of the
    constructor is overwritten by [initialize] before it is read; ROI
    components are integers throughout. *)
Record camera : Type := mkCamera {
  _handle : dev;
  calls : list event;
  enabled : bool;
  settings : list string;
  _acquiring : bool;
  _serial_number : option string;
  _sensor_shape : Z * Z;
  _roi : ROI;
  _binning : Binning;
  _trigger_map : string * string
}.

Definition with_handle (d : dev) (ev : event) (c : camera) : camera :=
  mkCamera d (calls c ++ [ev]) (enabled c) (settings c) (_acquiring c)
    (_serial_number c) (_sensor_shape c) (_roi c) (_binning c) (_trigger_map c).

Definition with_enabled (b : bool) (c : camera) : camera :=
  mkCamera (_handle c) (calls c) b (settings c) (_acquiring c)
    (_serial_number c) (_sensor_shape c) (_roi c) (_binning c) (_trigger_map c).

Definition with_setting (name : string) (c : camera) : camera :=
  mkCamera (_handle c) (calls c) (enabled c) (settings c ++ [name]) (_acquiring c)
    (_serial_number c) (_sensor_shape c) (_roi c) (_binning c) (_trigger_map c).

Definition with_acquiring (b : bool) (c : camera) : camera :=
  mkCamera (_handle c) (calls c) (enabled c) (settings c) b
    (_serial_number c) (_sensor_shape c) (_roi c) (_binning c) (_trigger_map c).

Definition with_sensor_shape (s : Z * Z) (c : camera) : camera :=
  mkCamera (_handle c) (calls c) (enabled c) (settings c) (_acquiring c)
    (_serial_number c) s (_roi c) (_binning c) (_trigger_map c).

Definition with_roi (r : ROI) (c : camera) : camera :=
  mkCamera (_handle c) (calls c) (enabled c) (settings c) (_acquiring c)
    (_serial_number c) (_sensor_shape c) r (_binning c) (_trigger_map c).

Definition with_trigger_map (m : string * string) (c : camera) : camera :=
  mkCamera (_handle c) (calls c) (enabled c) (settings c) (_acquiring c)
    (_serial_number c) (_sensor_shape c) (_roi c) (_binning c) m.

(** [self._handle.<call>(...)] *)
Definition sdk (q : call) : M camera Z :=
  fun c =>
    let (r, d) := xi (_handle c) q in
    (match r with Ok x => Ret x | Err e => Raise e end,
     with_handle d (mkEvent q r (_acquiring c)) c).

(** *** Acquisition state *)

Definition abort : M camera unit :=
  acquiring <- gets _acquiring ;;
  if acquiring then
    modify (with_acquiring false) ;;
    try_except (sdk stop_acquisition ;; ret tt)
      (fun e => modify (with_acquiring true) ;; raise e)
  else ret tt.

Definition _do_disable : M camera unit := abort.

Definition _do_enable : M camera bool :=
  acquiring <- gets _acquiring ;;
  (if acquiring then abort else ret tt) ;;
  sdk start_acquisition ;;
  modify (with_acquiring true) ;;
  ret true.

(** Modelled from the spec: [enable] and [disable] and the [enabled]
    flag they keep are defined by the base class in microscope/abc.py,
    which is not among the sources.  By the spec, [disable] delegates
    to the abort path and leaves the device disabled; [enable] runs the
    start path, reports success or failure, and surfaces a hardware
    rejection without touching the flag. *)
Definition disable : M camera unit :=
  _do_disable ;;
  modify (with_enabled false).

Definition enable : M camera bool :=
  result <- _do_enable ;;
  modify (with_enabled result) ;;
  ret result.

(** *** Scoped reconfiguration

    A [with _disabled_camera(self): body] statement; the generator of
    the context manager is resumed or thrown into at its [yield], so
    its [finally] clause wraps [disable] and the body. *)
Definition _disabled_camera {A : Type} (body : M camera A) : M camera A :=
  en <- gets enabled ;;
  if en then try_finally (disable ;; body) enable
  else body.

Definition _enabled_camera {A : Type} (body : M camera A) : M camera A :=
  en <- gets enabled ;;
  if negb en then try_finally (enable ;; body) disable
  else body.

(** *** Frame fetch

    [get_image] blocks while other threads run; [during] is what they
    do to the acquisition flag in the meantime (the identity when
    nothing else runs, [fun _ => false] for the abort the source
    comment speaks of). *)
Definition blocking (during : bool -> bool) (q : call) : M camera Z :=
  fun c =>
    let (r, c1) := sdk q c in
    (r, with_acquiring (during (_acquiring c1)) c1).

(** The result is [None] or the frame.  The [try] statement covers
    [get_image] only; its handlers either return [None] from the
    method ([true] below) or re-raise. *)
Definition _fetch_data (during : bool -> bool) : M camera (option Z) :=
  acquiring <- gets _acquiring ;;
  if negb acquiring then ret None
  else
    returned <-
      try_except (blocking during (get_image 1) ;; ret false)
        (fun err =>
           match err with
           | Xi_error status =>
               if status_is _XI_TIMEOUT status then ret true
               else
                 acquiring' <- gets _acquiring ;;
                 if status_is _XI_ACQUISITION_STOPED status && negb acquiring'
                 then ret true
                 else raise err
           | _ => raise err
           end) ;;
    if returned : bool then ret None
    else
      data <- sdk get_image_data_numpy ;;
      ret (Some data).

(** *** Exposure

    [set_exposure_time] takes a float number of seconds.
    [microseconds] stands for the expression [int(value * 1000000)]; it
    is evaluated inside the [try] statement, and it raises for a value
    that is not a finite number (a NaN, an infinity). *)
Definition set_exposure_time {float : Type} (microseconds : float -> outcome Z)
    (value : float) : M camera unit :=
  try_except
    (us <- evaluate (microseconds value) ;;
     sdk (set_exposure_direct us) ;;
     ret tt)
    (fun err => ret tt).

Definition _get_sensor_shape : M camera (Z * Z) := gets _sensor_shape.

(** *** Trigger *)

(** [TRIGGER_TABLE[key]] *)
Definition TRIGGER_TABLE_getitem (key : TriggerType * TriggerMode)
    : M camera (string * string) :=
  match dict_get trigger_key_eqb key TRIGGER_TABLE with
  | Some m => ret m
  | None => raise KeyError
  end.

Definition _do_trigger : M camera unit :=
  current <- gets _trigger_map ;;
  once <- TRIGGER_TABLE_getitem (SOFTWARE, ONCE) ;;
  if native_pair_eqb current once then
    sdk (set_trigger_software 1) ;; ret tt
  else ret tt.

(** Modelled from the spec: [trigger] is defined by the base class in
    microscope/abc.py, which is not among the sources; the driver only
    supplies the hook [_do_trigger].  By the spec, [trigger] is only
    valid when the active trigger spec is software/once, and any other
    active spec makes it fail with an unsupported-operation error
    rather than send a pulse. *)
Definition trigger : M camera unit :=
  current <- gets _trigger_map ;;
  once <- TRIGGER_TABLE_getitem (SOFTWARE, ONCE) ;;
  if native_pair_eqb current once then _do_trigger
  else raise (UnsupportedOperationError "active trigger is not software/once").

Definition soft_trigger : M camera unit := trigger.

Definition trigger_mode (c : camera) : pyval := PyStr (snd (_trigger_map c)).

Definition trigger_type (c : camera) : pyval := PyStr (fst (_trigger_map c)).

Definition set_trigger (ttype : TriggerType) (tmode : TriggerMode) : M camera unit :=
  new_map <-
    try_except (TRIGGER_TABLE_getitem (ttype, tmode))
      (fun err =>
         match err with
         | KeyError =>
             raise (UnsupportedFeatureError
                      ("TriggerType." ++ TriggerType_name ttype
                       ++ " - TriggerMode." ++ TriggerMode_name tmode
                       ++ " not supported")%string)
         | _ => raise err
         end) ;;
  current <- gets _trigger_map ;;
  if negb (native_pair_eqb new_map current) then
    _disabled_camera
      (sdk (set_trigger_source (fst new_map)) ;;
       sdk (set_trigger_selector (snd new_map)) ;;
       ret tt) ;;
    modify (with_trigger_map new_map)
  else ret tt.

(** *** Binning *)

Definition _get_binning : M camera Binning := gets _binning.

Definition _set_binning (binning : Binning) : M camera bool :=
  current <- gets _binning ;;
  if Binning_eqb binning current then ret true
  else raise NotImplementedError.

(** *** Region of interest *)

Definition _get_roi : M camera ROI :=
  mirrored <- gets _roi ;;
  x <- sdk get_offsetX ;;
  y <- sdk get_offsetY ;;
  w <- sdk get_width ;;
  hh <- sdk get_height ;;
  if ROI_eqb mirrored (mkROI x y w hh) then gets _roi
  else raise (AssertionError "ROI attribute is out of sync with internal camera setting").

(** The correction of one component, as a step of a method. *)
Definition quantize (x incr : Z) : M camera Z := evaluate (quantized x incr).

(** The six writes of the first [with] block of [_set_roi]. *)
Definition push_roi (roi : ROI) : M camera unit :=
  sdk (set_offsetX 0) ;;
  sdk (set_offsetY 0) ;;
  sdk (set_width (width roi)) ;;
  sdk (set_height (height roi)) ;;
  sdk (set_offsetX (left roi)) ;;
  sdk (set_offsetY (top roi)) ;;
  ret tt.

Definition write_roi (roi : ROI) : M camera unit :=
  _disabled_camera (push_roi roi).

(** One of the four [if x != self._roi.x:] blocks of the retry: when
    the requested component differs from the mirrored one, ask the
    increment of the axis, round, and write the rounded value. *)
Definition correct_axis (x : Z) (mirrored : ROI -> Z)
    (get_increment : call) (set : Z -> call) : M camera Z :=
  previous <- gets _roi ;;
  if negb (x =? mirrored previous) then
    incr <- sdk get_increment ;;
    x' <- quantize x incr ;;
    sdk (set x') ;;
    ret x'
  else ret x.

(** The second [with] block of [_set_roi], in the [Xi_error] handler;
    its value is the ROI rebuilt from the corrected components. *)
Definition correct_roi (roi : ROI) : M camera ROI :=
  let height0 := height roi in
  let width0 := width roi in
  let left0 := left roi in
  let top0 := top roi in
  height1 <- correct_axis height0 height get_height_increment set_height ;;
  width1 <- correct_axis width0 width get_width_increment set_width ;;
  left1 <- correct_axis left0 left get_offsetX_increment set_offsetX ;;
  top1 <- correct_axis top0 top get_offsetY_increment set_offsetY ;;
  ret (mkROI left1 top1 width1 height1).

Definition retry_roi (roi : ROI) : M camera ROI :=
  _disabled_camera (correct_roi roi).

Definition exceeds (roi : ROI) (shape : Z * Z) : bool :=
  (width roi + left roi >? fst shape) || (height roi + top roi >? snd shape).

(** [depth] is the number of frames left on the interpreter's stack:
    the method calls itself from its last handler, and a call that
    finds no frame left raises [RecursionError]. *)
Fixpoint _set_roi (depth : nat) (roi : ROI) : M camera bool :=
  match depth with
  | O => raise RecursionError
  | S depth' =>
      shape <- gets _sensor_shape ;;
      if exceeds roi shape then raise (ValueError roi shape)
      else
        roi' <-
          try_except (write_roi roi ;; ret roi)
            (fun err =>
               match err with
               | Xi_error status =>
                   match status with
                   | None => raise AttributeError
                   | Some s =>
                       if s =? _XI_INVALID_ARGUMENTS then retry_roi roi
                       else ret roi
                   end
               | _ =>
                   previous <- gets _roi ;;
                   _set_roi depth' previous ;;
                   raise err
               end) ;;
        modify (with_roi roi') ;;
        ret true
  end.

(** Modelled from the spec: the public [set_roi] is defined by the base
    class in microscope/abc.py, which is not among the sources; by the
    spec it is the ROI negotiation of [_set_roi]. *)
Definition set_roi (depth : nat) (roi : ROI) : M camera bool :=
  _set_roi depth roi.

(** *** Initialisation *)

(** One round of the loop over the temperature sensors.
    Modelled from the spec: [add_setting] belongs to the base class,
    not among the sources; it registers the named read-only setting. *)
Definition probe_temperature (temp_param_name : string) : M camera unit :=
  present <-
    try_except (sdk (get_temp temp_param_name) ;; ret true)
      (fun err =>
         match err with
         | Xi_error status =>
             match status with
             | None => raise AttributeError
             | Some s =>
                 if negb (s =? _XI_NOT_SUPPORTED) && negb (s =? _XI_NOT_IMPLEMENTED)
                 then raise err
                 else ret false
             end
         | _ => raise err
         end) ;;
  if present : bool then modify (with_setting temp_param_name) else ret tt.

Definition initialize (depth : nat) : M camera unit :=
  n_cameras <- sdk get_number_devices ;;
  serial_number <- gets _serial_number ;;
  match serial_number with
  | None =>
      if n_cameras >? 1 then
        raise (TypeError "more than one Ximea camera found but the serial_number argument was not specified")
      else sdk open_device
  | Some sn => sdk (open_device_by_SN sn)
  end ;;
  wmax <- sdk get_width_maximum ;;
  xmax <- sdk get_offsetX_maximum ;;
  hmax <- sdk get_height_maximum ;;
  ymax <- sdk get_offsetY_maximum ;;
  modify (with_sensor_shape (wmax + xmax, hmax + ymax)) ;;
  shape <- gets _sensor_shape ;;
  modify (with_roi (mkROI 0 0 (fst shape) (snd shape))) ;;
  whole <- gets _roi ;;
  set_roi depth whole ;;
  set_trigger SOFTWARE ONCE ;;
  probe_temperature "chip_temp" ;;
  probe_temperature "hous_temp" ;;
  probe_temperature "hous_back_side_temp" ;;
  probe_temperature "sensor_board_temp".

(** The attributes as the constructor assigns them before it calls
    [initialize]; [once] is the value of
    [TRIGGER_TABLE[(SOFTWARE, ONCE)]]. *)
Definition XimeaCamera_attributes (serial_number : option string) (d : dev)
    (once : string * string) : camera :=
  mkCamera d [] false [] false serial_number (0, 0) (mkROI 0 0 0 0)
    (mkBinning 1 1) once.

Definition XimeaCamera__init__ (depth : nat) (serial_number : option string)
    (d : dev) : outcome unit * camera :=
  match dict_get trigger_key_eqb (SOFTWARE, ONCE) TRIGGER_TABLE with
  | Some once => initialize depth (XimeaCamera_attributes serial_number d once)
  | None => (Raise KeyError, XimeaCamera_attributes serial_number d ("", ""))
  end.

(** *** Shutdown

    [CAM_OPEN] is the flag the SDK object keeps of whether a device is
    open behind it; it is read off the handle. *)
Definition _do_shutdown (CAM_OPEN : dev -> bool) : M camera unit :=
  acquiring <- gets _acquiring ;;
  (if acquiring then sdk stop_acquisition ;; ret tt else ret tt) ;;
  is_open <- gets (fun c => CAM_OPEN (_handle c)) ;;
  if is_open then sdk close_device ;; ret tt else ret tt.

(** *** Reachable states

    The calls a client (or the constructor) can make on the object;
    the exposure is given by what its conversion to microseconds
    yields. *)
Inductive method : Type :=
| call_initialize (depth : nat)
| call_enable
| call_disable
| call_abort
| call_trigger
| call_soft_trigger
| call_set_trigger (ttype : TriggerType) (tmode : TriggerMode)
| call_set_roi (depth : nat) (roi : ROI)
| call_get_roi
| call_set_binning (binning : Binning)
| call_set_exposure_time (us : outcome Z)
| call_fetch_data (during : bool -> bool).

(** The state a call leaves, whether it returns or raises. *)
Definition after (m : method) (c : camera) : camera :=
  match m with
  | call_initialize depth => snd (initialize depth c)
  | call_enable => snd (enable c)
  | call_disable => snd (disable c)
  | call_abort => snd (abort c)
  | call_trigger => snd (trigger c)
  | call_soft_trigger => snd (soft_trigger c)
  | call_set_trigger ttype tmode => snd (set_trigger ttype tmode c)
  | call_set_roi depth roi => snd (set_roi depth roi c)
  | call_get_roi => snd (_get_roi c)
  | call_set_binning binning => snd (_set_binning binning c)
  | call_set_exposure_time us => snd (set_exposure_time (fun o : outcome Z => o) us c)
  | call_fetch_data during => snd (_fetch_data during c)
  end.

Inductive reachable : camera -> Prop :=
| reachable_new (serial_number : option string) (d : dev) (once : string * string) :
    dict_get trigger_key_eqb (SOFTWARE, ONCE) TRIGGER_TABLE = Some once ->
    reachable (XimeaCamera_attributes serial_number d once)
| reachable_after (m : method) (c : camera) :
    reachable c -> reachable (after m c).

End Camera.
Arguments camera dev : clear implicits.

(** ** A scripted device

    A handle whose answer to the n-th call is read off a script; the
    examples run the driver against it. *)
Record scripted : Type := mkScripted {
  script : nat -> call -> reply;
  served : nat
}.

#[global] Instance scripted_handle : Handle scripted :=
  fun d q => (script d (served d) q, mkScripted (script d) (S (served d))).

(** A device that accepts everything. *)
Definition obliging : nat -> call -> reply := fun _ _ => Ok 0.

(** A device that refuses the call [bad] with [e] and accepts the rest. *)
Definition refusing (bad : call -> bool) (e : exn) : nat -> call -> reply :=
  fun _ q => if bad q then Err e else Ok 0.

Definition is_start_acquisition (q : call) : bool :=
  match q with start_acquisition => true | _ => false end.

Definition is_set_width (q : call) : bool :=
  match q with set_width _ => true | _ => false end.

(** A device with an increment grid of 4 on every axis: it reports the
    increment and rejects a size or offset off the grid as an invalid
    argument. *)
Definition on_grid (x : Z) : reply :=
  if x mod 4 =? 0 then Ok 0 else Err (Xi_error (Some _XI_INVALID_ARGUMENTS)).

Definition gridded : nat -> call -> reply :=
  fun _ q =>
    match q with
    | set_width x | set_height x | set_offsetX x | set_offsetY x => on_grid x
    | get_height_increment | get_width_increment
    | get_offsetX_increment | get_offsetY_increment => Ok 4
    | _ => Ok 0
    end.

(** The same grid on a sensor 1001 columns wide and 1000 rows high. *)
Definition off_grid_sensor : nat -> call -> reply :=
  fun n q =>
    match q with
    | get_width_maximum => Ok 1001
    | get_height_maximum => Ok 1000
    | _ => gridded n q
    end.

(** A camera after a successful start-up on a 2048 x 2048 sensor, with
    the given device, flags, mirrored ROI and cached native pair. *)
Definition bench_on {dev : Type} (d : dev) (en acq : bool) (roi : ROI)
    (native : string * string) : camera dev :=
  mkCamera d [] en [] acq None (2048, 2048) roi (mkBinning 1 1) native.

Definition bench (plan : nat -> call -> reply) (en acq : bool) (roi : ROI)
    (native : string * string) : camera scripted :=
  bench_on (mkScripted plan 0) en acq roi native.

(** A device without state that accepts every call. *)
#[global] Instance steady_handle : Handle unit := fun _ _ => (Ok 0, tt).

Definition full_frame : ROI := mkROI 0 0 2048 2048.

Definition software_once : string * string :=
  ("XI_TRG_SOFTWARE", "XI_TRG_SEL_FRAME_START").

(** ** Predicates of the statements *)

(** [preserves P m]: a property of the camera that holds before [m]
    holds after it, whether [m] returns or raises. *)
Definition preserves {dev : Type} {A : Type} (P : camera dev -> Prop)
    (m : M (camera dev) A) : Prop :=
  forall c, P c -> P (snd (m c)).

(** [surfaces m]: the calls [m] makes are appended to the history, and
    [m] returns normally only if the handle accepted every one of them. *)
Definition surfaces {dev : Type} {A : Type} (m : M (camera dev) A) : Prop :=
  forall c, exists new : list event,
    calls (snd (m c)) = calls c ++ new /\
    (forall a, fst (m c) = Ret a -> forallb answered_ok new = true).

(** The cached native pair is a value of the mapping table. *)
Definition native_cached {dev : Type} (c : camera dev) : Prop :=
  In (_trigger_map c) (map snd TRIGGER_TABLE).

(** [r] is an integer nearest to the quotient of [n] by [d], and an
    even one if the quotient lies half-way between two integers. *)
Definition is_nearest_even (n d r : Z) : Prop :=
  2 * Z.abs (n - r * d) < Z.abs d \/
  (2 * Z.abs (n - r * d) = Z.abs d /\ Z.even r = true).



(** A component, the component applied for it, and the increment the
    handle reported: the applied value is the multiple of the increment
    nearest to the request, the one with the even factor of the two when
    the request lies half-way; it is never further than half an
    increment away, and differs from the request exactly when the
    request was off the grid. *)
Definition rounded_to_grid (requested applied incr : Z) : Prop :=
  incr <> 0 /\
  applied = nearest_even_quotient requested incr * incr /\
  2 * Z.abs (applied - requested) <= Z.abs incr /\
  (applied <> requested <-> requested mod incr <> 0).

(** The calls of one axis of the ROI: the query of its increment and
    the write of its component. *)
Definition height_axis (q : call) : bool :=
  match q with get_height_increment | set_height _ => true | _ => false end.

Definition width_axis (q : call) : bool :=
  match q with get_width_increment | set_width _ => true | _ => false end.

Definition left_axis (q : call) : bool :=
  match q with get_offsetX_increment | set_offsetX _ => true | _ => false end.

Definition top_axis (q : call) : bool :=
  match q with get_offsetY_increment | set_offsetY _ => true | _ => false end.

(** Those of the calls [evs] that [on_axis] admits, in order. *)
Definition axis_events (on_axis : call -> bool) (evs : list event) : list event :=
  filter (fun ev => on_axis (request ev)) evs.

(** What the retry does on one axis, [evs] being the calls it made.  A
    component requested as it is mirrored is kept, and no call is made
    for its axis: the increment is not asked, nothing is written.  For a
    component that differs, the calls of the axis are two, both
    accepted: the query [q] of the increment, then the write of the
    applied component, which is what the correction yields for the
    request and the increment answered; it is a multiple of that
    increment, and the nearest one when the request is below [2 ^ 52]
    in magnitude. *)
Definition axis_corrected (requested previous applied : Z) (on_axis : call -> bool)
    (q : call) (set : Z -> call) (evs : list event) : Prop :=
  (requested = previous ->
     applied = requested /\ axis_events on_axis evs = []) /\
  (requested <> previous ->
     exists incr y,
       map request (axis_events on_axis evs) = [q; set applied] /\
       map answer (axis_events on_axis evs) = [Ok incr; Ok y] /\
       quantized requested incr = Ret applied /\
       incr <> 0 /\ applied mod incr = 0 /\
       (Z.abs requested < 2 ^ 52 -> rounded_to_grid requested applied incr)).

(** ** Footprints

    [confined P allowed m]: started in a state where [P] holds, [m]
    ends, returning or raising, in a state where [P] holds, and every
    call it made on the handle is one [allowed] admits. *)
Definition confined {dev : Type} {A : Type} (P : camera dev -> Prop)
    (allowed : call -> bool) (m : M (camera dev) A) : Prop :=
  forall c, P c ->
    P (snd (m c)) /\
    exists new : list event,
      calls (snd (m c)) = calls c ++ new /\
      forallb (fun ev => allowed (request ev)) new = true.

Definition anything {dev : Type} (c : camera dev) : Prop := True.

Definition stop_call (q : call) : bool :=
  match q with stop_acquisition => true | _ => false end.

Definition acquisition_call (q : call) : bool :=
  match q with start_acquisition | stop_acquisition => true | _ => false end.

Definition fetch_call (q : call) : bool :=
  match q with get_image _ | get_image_data_numpy => true | _ => false end.

Definition exposure_call (q : call) : bool :=
  match q with set_exposure_direct _ => true | _ => false end.

Definition pulse_call (q : call) : bool :=
  match q with set_trigger_software _ => true | _ => false end.

Definition trigger_push (q : call) : bool :=
  match q with set_trigger_source _ | set_trigger_selector _ => true | _ => false end.

Definition trigger_config_call (q : call) : bool :=
  acquisition_call q || trigger_push q.

Definition geometry_read (q : call) : bool :=
  match q with get_offsetX | get_offsetY | get_width | get_height => true | _ => false end.

Definition roi_call (q : call) : bool :=
  acquisition_call q ||
  match q with
  | set_offsetX _ | set_offsetY _ | set_width _ | set_height _
  | get_height_increment | get_width_increment
  | get_offsetX_increment | get_offsetY_increment => true
  | _ => false
  end.

Definition shutdown_call (q : call) : bool :=
  match q with stop_acquisition | close_device => true | _ => false end.

(** The calls of [initialize] when it has no trigger to push. *)
Definition startup_call (q : call) : bool :=
  roi_call q ||
  match q with
  | get_number_devices | open_device | open_device_by_SN _
  | get_width_maximum | get_height_maximum
  | get_offsetX_maximum | get_offsetY_maximum | get_temp _ => true
  | _ => false
  end.

(** The names of the temperature sensors [initialize] probes, in order. *)
Definition temperature_sensors : list string :=
  ["chip_temp"; "hous_temp"; "hous_back_side_temp"; "sensor_board_temp"].

(** A system with two cameras attached. *)
Definition two_cameras : nat -> call -> reply :=
  fun _ q => match q with get_number_devices => Ok 2 | _ => Ok 0 end.

(** A camera without a temperature sensor in its housing. *)
Definition no_housing_sensor : nat -> call -> reply :=
  fun _ q =>
    match q with
    | get_temp name =>
        if String.eqb name "hous_temp" then Err (Xi_error (Some _XI_NOT_SUPPORTED))
        else if String.eqb name "hous_back_side_temp"
             then Err (Xi_error (Some _XI_NOT_IMPLEMENTED))
             else Ok 35
    | _ => Ok 0
    end.

(** What a temperature probe answered with [r] registers. *)
Definition registered (name : string) (r : reply) : list string :=
  match r with Ok _ => [name] | Err _ => [] end.

(** The answers [initialize] takes from a probe: a reading, or the
    not-supported or not-implemented status. *)
Definition reading_or_absent (r : reply) : Prop :=
  match r with
  | Ok _ => True
  | Err e => e = Xi_error (Some _XI_NOT_SUPPORTED) \/ e = Xi_error (Some _XI_NOT_IMPLEMENTED)
  end.

(** A call with its answer, as logged. *)
Definition exchange (ev : event) : call * reply := (request ev, answer ev).

(** * Properties *)

(** ** Acquisition state: [abort], [_do_disable], [_do_enable] *)

Section AcquisitionProperties.
Context {dev : Type} {handle : Handle dev}.

Lemma with_enabled_same (c : camera dev) :
  with_enabled (enabled c) c = c.
Proof. destruct c; reflexivity. Qed.

Lemma abort_idle (c : camera dev) :
  _acquiring c = false -> abort c = (Ret tt, c).
Proof.
  intros Hidle. unfold abort, bind, gets. rewrite Hidle. reflexivity.
Qed.

Lemma abort_acquiring (c : camera dev) (r : reply) (d : dev) :
  _acquiring c = true ->
  xi (_handle c) stop_acquisition = (r, d) ->
  abort c =
    match r with
    | Ok _ =>
        (Ret tt,
         with_handle d (mkEvent stop_acquisition r false) (with_acquiring false c))
    | Err e =>
        (Raise e,
         with_acquiring true
           (with_handle d (mkEvent stop_acquisition r false) (with_acquiring false c)))
    end.
Proof.
  intros Hacq Hxi.
  unfold abort, bind, gets, modify, try_except, sdk, raise, ret.
  rewrite Hacq. cbn [_handle with_acquiring _acquiring]. rewrite Hxi.
  destruct r; reflexivity.
Qed.

(** C4.  [abort] (and with it [_do_disable] and [disable]) does nothing
    when the camera is not acquiring: no call reaches the handle and no
    attribute changes.  When it is acquiring, exactly one
    [stop_acquisition] call is made, and it is made with the flag
    already cleared; if the call is accepted the flag stays cleared, if
    it raises the flag is set back and the same exception leaves
    [abort]. *)
Theorem abort_clears_flag_before_stop_and_rolls_back (c : camera dev) :
  (_acquiring c = false ->
     abort c = (Ret tt, c) /\
     _do_disable c = (Ret tt, c) /\
     disable c = (Ret tt, with_enabled false c) /\
     (enabled c = false -> disable c = (Ret tt, c)))
  /\
  (_acquiring c = true ->
     forall (r : reply) (d : dev),
       xi (_handle c) stop_acquisition = (r, d) ->
       exists c' : camera dev,
         snd (abort c) = c' /\
         _do_disable c = abort c /\
         calls c' = calls c ++ [mkEvent stop_acquisition r false] /\
         _handle c' = d /\
         match r with
         | Ok _ => fst (abort c) = Ret tt /\ _acquiring c' = false
         | Err e => fst (abort c) = Raise e /\ _acquiring c' = true
         end /\
         enabled c' = enabled c /\ _roi c' = _roi c /\
         _trigger_map c' = _trigger_map c /\ _sensor_shape c' = _sensor_shape c).
Proof.
  split.
  - intros Hidle. pose proof (abort_idle c Hidle) as Habort.
    repeat split.
    + exact Habort.
    + exact Habort.
    + unfold disable, _do_disable, bind. rewrite Habort. reflexivity.
    + intros Hoff. unfold disable, _do_disable, bind. rewrite Habort.
      unfold modify. rewrite <- Hoff. rewrite with_enabled_same. reflexivity.
  - intros Hacq r d Hxi.
    rewrite (abort_acquiring c r d Hacq Hxi).
    destruct r as [x | e]; eexists; repeat split;
      unfold _do_disable; rewrite (abort_acquiring c _ d Hacq Hxi); reflexivity.
Qed.

Lemma do_enable_idle (c : camera dev) (r : reply) (d : dev) :
  _acquiring c = false ->
  xi (_handle c) start_acquisition = (r, d) ->
  _do_enable c =
    match r with
    | Ok _ =>
        (Ret true,
         with_acquiring true (with_handle d (mkEvent start_acquisition r false) c))
    | Err e => (Raise e, with_handle d (mkEvent start_acquisition r false) c)
    end.
Proof.
  intros Hidle Hxi.
  unfold _do_enable, bind, gets, modify, sdk, ret.
  rewrite Hidle, Hxi. destruct r; cbn; rewrite ?Hidle; reflexivity.
Qed.

Lemma do_enable_acquiring (c : camera dev) (r1 : reply) (d1 : dev) :
  _acquiring c = true ->
  xi (_handle c) stop_acquisition = (r1, d1) ->
  _do_enable c =
    let stopped :=
      with_handle d1 (mkEvent stop_acquisition r1 false) (with_acquiring false c) in
    match r1 with
    | Err e => (Raise e, with_acquiring true stopped)
    | Ok _ =>
        let (r2, d2) := xi d1 start_acquisition in
        let started := with_handle d2 (mkEvent start_acquisition r2 false) stopped in
        match r2 with
        | Ok _ => (Ret true, with_acquiring true started)
        | Err e => (Raise e, started)
        end
    end.
Proof.
  intros Hacq Hstop.
  unfold _do_enable, bind, gets. rewrite Hacq.
  rewrite (abort_acquiring c r1 d1 Hacq Hstop).
  destruct r1 as [x1 | e1]; [ | reflexivity ].
  unfold sdk, modify, ret. cbn [_handle with_handle with_acquiring _acquiring].
  destruct (xi d1 start_acquisition) as [[x2 | e2] d2]; reflexivity.
Qed.

(** C5 (amended).  [_do_enable] on a camera that is not acquiring makes
    one call, [start_acquisition]; on a camera that is acquiring it
    first aborts, and a failed stop leaves with that error, the flag
    set back and no start attempted.  After the abort exactly one
    [start_acquisition] call follows.  An accepted start returns [True]
    with the flag set; a rejected start raises the error of the
    handle and leaves the flag cleared, which is the state before the
    call only if the camera was not acquiring then. *)
Theorem do_enable_aborts_then_starts_once (c : camera dev) :
  (_acquiring c = false ->
     forall (r : reply) (d : dev),
       xi (_handle c) start_acquisition = (r, d) ->
       calls (snd (_do_enable c)) = calls c ++ [mkEvent start_acquisition r false] /\
       match r with
       | Ok _ =>
           fst (_do_enable c) = Ret true /\ _acquiring (snd (_do_enable c)) = true
       | Err e =>
           fst (_do_enable c) = Raise e /\
           _acquiring (snd (_do_enable c)) = _acquiring c
       end)
  /\
  (_acquiring c = true ->
     forall (r1 : reply) (d1 : dev),
       xi (_handle c) stop_acquisition = (r1, d1) ->
       match r1 with
       | Err e =>
           fst (_do_enable c) = Raise e /\
           calls (snd (_do_enable c)) = calls c ++ [mkEvent stop_acquisition r1 false] /\
           _acquiring (snd (_do_enable c)) = true
       | Ok _ =>
           forall (r2 : reply) (d2 : dev),
             xi d1 start_acquisition = (r2, d2) ->
             calls (snd (_do_enable c))
               = calls c ++ [mkEvent stop_acquisition r1 false;
                             mkEvent start_acquisition r2 false] /\
             match r2 with
             | Ok _ =>
                 fst (_do_enable c) = Ret true /\
                 _acquiring (snd (_do_enable c)) = true
             | Err e =>
                 fst (_do_enable c) = Raise e /\
                 _acquiring (snd (_do_enable c)) = false
             end
       end).
Proof.
  split.
  - intros Hidle r d Hxi.
    rewrite (do_enable_idle c r d Hidle Hxi).
    destruct r as [x | e]; cbn; rewrite ?Hidle; auto.
  - intros Hacq r1 d1 Hstop.
    rewrite (do_enable_acquiring c r1 d1 Hacq Hstop).
    destruct r1 as [x1 | e1].
    + intros r2 d2 Hstart. cbv zeta. rewrite Hstart.
      destruct r2 as [x2 | e2]; cbn; rewrite <- app_assoc; auto.
    + cbn. auto.
Qed.

End AcquisitionProperties.

Lemma abort_clears_flag_before_stop_and_rolls_back_witness :
  abort (bench obliging false false full_frame software_once)
    = (Ret tt, bench obliging false false full_frame software_once)
  /\ fst (abort (bench (refusing (fun _ => true) (Xi_error (Some 1))) true true
                   full_frame software_once))
     = Raise (Xi_error (Some 1))
  /\ _acquiring (snd (abort (bench (refusing (fun _ => true) (Xi_error (Some 1))) true true
                   full_frame software_once))) = true.
Proof.
  split.
  - apply (proj1 (proj1 (abort_clears_flag_before_stop_and_rolls_back
                    (bench obliging false false full_frame software_once)) eq_refl)).
  - destruct (proj2 (abort_clears_flag_before_stop_and_rolls_back
                       (bench (refusing (fun _ => true) (Xi_error (Some 1))) true true
                          full_frame software_once))
                eq_refl (Err (Xi_error (Some 1)))
                (mkScripted (refusing (fun _ => true) (Xi_error (Some 1))) 1) eq_refl)
      as (c' & Hsnd & _ & _ & _ & (Hfst & Hflag) & _).
    split.
    + exact Hfst.
    + rewrite Hsnd. exact Hflag.
Defined.

Lemma do_enable_aborts_then_starts_once_witness :
  fst (_do_enable (bench obliging false false full_frame software_once)) = Ret true
  /\ calls (snd (_do_enable (bench obliging true true full_frame software_once)))
     = [mkEvent stop_acquisition (Ok 0) false; mkEvent start_acquisition (Ok 0) false].
Proof.
  split.
  - exact (proj1 (proj2 (proj1 (do_enable_aborts_then_starts_once
                                  (bench obliging false false full_frame software_once))
                           eq_refl (Ok 0) (mkScripted obliging 1) eq_refl))).
  - exact (proj1 (proj2 (do_enable_aborts_then_starts_once
                           (bench obliging true true full_frame software_once))
                    eq_refl (Ok 0) (mkScripted obliging 1) eq_refl
                    (Ok 0) (mkScripted obliging 2) eq_refl)).
Defined.

(** C5 as stated fails: a camera that is acquiring, whose handle accepts
    the stop of the internal abort and rejects the start, is left not
    acquiring by the failed [_do_enable] (and by [enable]). *)
Lemma do_enable_rejected_start_changes_state :
  let c := bench (refusing is_start_acquisition (Xi_error (Some 1))) true true
             full_frame software_once in
  fst (_do_enable c) = Raise (Xi_error (Some 1))
  /\ fst (enable c) = Raise (Xi_error (Some 1))
  /\ _acquiring c = true
  /\ _acquiring (snd (_do_enable c)) = false
  /\ _acquiring (snd (_do_enable c)) <> _acquiring c
  /\ _acquiring (snd (enable c)) <> _acquiring c.
Proof.
  cbv zeta. repeat split; try reflexivity; vm_compute; discriminate.
Qed.

(** ** What a method leaves alone *)

Section Preservation.
Context {dev : Type} {handle : Handle dev}.
Variable P : camera dev -> Prop.

Lemma preserves_ret {A : Type} (a : A) : preserves P (ret a).
Proof. intros c Hc. exact Hc. Qed.

Lemma preserves_raise {A : Type} (e : exn) : preserves P (raise (A := A) e).
Proof. intros c Hc. exact Hc. Qed.

Lemma preserves_gets {A : Type} (f : camera dev -> A) : preserves P (gets f).
Proof. intros c Hc. exact Hc. Qed.

Lemma preserves_evaluate {A : Type} (o : outcome A) : preserves P (evaluate o).
Proof. intros c Hc. exact Hc. Qed.

Lemma preserves_modify (g : camera dev -> camera dev) :
  (forall c, P c -> P (g c)) -> preserves P (modify g).
Proof. intros Hg c Hc. apply Hg, Hc. Qed.

Lemma preserves_bind {A B : Type} (m : M (camera dev) A) (k : A -> M (camera dev) B) :
  preserves P m -> (forall a, preserves P (k a)) -> preserves P (bind m k).
Proof.
  intros Hm Hk c Hc. unfold bind.
  specialize (Hm c Hc). destruct (m c) as [[a | e] c1]; cbn in *.
  - apply Hk, Hm.
  - exact Hm.
Qed.

Lemma preserves_try_except {A : Type} (body : M (camera dev) A)
    (handler : exn -> M (camera dev) A) :
  preserves P body -> (forall e, preserves P (handler e)) ->
  preserves P (try_except body handler).
Proof.
  intros Hb Hh c Hc. unfold try_except.
  specialize (Hb c Hc). destruct (body c) as [[a | e] c1]; cbn in *.
  - exact Hb.
  - apply Hh, Hb.
Qed.

Lemma preserves_try_finally {A B : Type} (body : M (camera dev) A)
    (final : M (camera dev) B) :
  preserves P body -> preserves P final -> preserves P (try_finally body final).
Proof.
  intros Hb Hf c Hc. unfold try_finally.
  specialize (Hb c Hc). destruct (body c) as [r c1]; cbn in *.
  specialize (Hf c1 Hb). destruct (final c1) as [[b | e] c2]; exact Hf.
Qed.

Hypothesis P_handle : forall d ev c, P c -> P (with_handle d ev c).
Hypothesis P_acquiring : forall b c, P c -> P (with_acquiring b c).

Lemma preserves_sdk (q : call) : preserves P (sdk q).
Proof.
  intros c Hc. unfold sdk. destruct (xi (_handle c) q) as [r d]. cbn.
  apply P_handle, Hc.
Qed.

Lemma preserves_blocking (during : bool -> bool) (q : call) :
  preserves P (blocking during q).
Proof.
  intros c Hc. unfold blocking.
  pose proof (preserves_sdk q c Hc) as H1.
  destruct (sdk q c) as [r c1]. cbn in *. apply P_acquiring, H1.
Qed.

(** One step of a proof by the shape of the method. *)
Ltac shape :=
  repeat first
    [ simple apply preserves_ret | simple apply preserves_raise
    | simple apply preserves_gets | simple apply preserves_evaluate
    | simple apply preserves_sdk | simple apply preserves_blocking
    | simple apply preserves_modify; solve [ auto ]
    | simple apply preserves_bind; [ | intro ]
    | simple apply preserves_try_except; [ | intro ]
    | simple apply preserves_try_finally
    | match goal with
      | |- preserves _ (if ?b then _ else _) => destruct b
      | |- preserves _ (match ?x with _ => _ end) => destruct x
      end
    | assumption ].

Lemma preserves_abort : preserves P abort.
Proof. unfold abort. shape. Qed.

Lemma preserves_do_enable : preserves P _do_enable.
Proof. unfold _do_enable. shape. apply preserves_abort. Qed.

Lemma preserves_fetch_data (during : bool -> bool) : preserves P (_fetch_data during).
Proof. unfold _fetch_data. shape. Qed.

Lemma preserves_set_exposure_time {float : Type} (us : float -> outcome Z)
    (value : float) :
  preserves P (set_exposure_time us value).
Proof. unfold set_exposure_time. shape. Qed.

Lemma preserves_TRIGGER_TABLE_getitem (key : TriggerType * TriggerMode) :
  preserves P (TRIGGER_TABLE_getitem key).
Proof. unfold TRIGGER_TABLE_getitem. shape. Qed.

Lemma preserves_do_trigger : preserves P _do_trigger.
Proof.
  unfold _do_trigger. shape. apply preserves_TRIGGER_TABLE_getitem.
Qed.

Lemma preserves_trigger : preserves P trigger.
Proof.
  unfold trigger. shape.
  - apply preserves_TRIGGER_TABLE_getitem.
  - apply preserves_do_trigger.
Qed.

Lemma preserves_set_binning (binning : Binning) : preserves P (_set_binning binning).
Proof. unfold _set_binning. shape. Qed.

Lemma preserves_get_roi : preserves P _get_roi.
Proof. unfold _get_roi. shape. Qed.

Lemma preserves_quantize (x incr : Z) : preserves P (quantize x incr).
Proof. apply preserves_evaluate. Qed.

Lemma preserves_push_roi (roi : ROI) : preserves P (push_roi roi).
Proof. unfold push_roi. shape. Qed.

Lemma preserves_correct_axis (x : Z) (mirrored : ROI -> Z) (g : call) (s : Z -> call) :
  preserves P (correct_axis x mirrored g s).
Proof. unfold correct_axis. shape. apply preserves_quantize. Qed.

Lemma preserves_correct_roi (roi : ROI) : preserves P (correct_roi roi).
Proof. unfold correct_roi. cbv zeta. shape; apply preserves_correct_axis. Qed.

Hypothesis P_enabled : forall b c, P c -> P (with_enabled b c).

Lemma preserves_disable : preserves P disable.
Proof. unfold disable, _do_disable. shape. apply preserves_abort. Qed.

Lemma preserves_enable : preserves P enable.
Proof. unfold enable. shape. apply preserves_do_enable. Qed.

Lemma preserves_disabled_camera {A : Type} (body : M (camera dev) A) :
  preserves P body -> preserves P (_disabled_camera body).
Proof.
  intros Hbody. unfold _disabled_camera. shape.
  - apply preserves_disable.
  - apply preserves_enable.
Qed.

Lemma preserves_enabled_camera {A : Type} (body : M (camera dev) A) :
  preserves P body -> preserves P (_enabled_camera body).
Proof.
  intros Hbody. unfold _enabled_camera. shape.
  - apply preserves_enable.
  - apply preserves_disable.
Qed.

Lemma preserves_write_roi (roi : ROI) : preserves P (write_roi roi).
Proof. apply preserves_disabled_camera, preserves_push_roi. Qed.

Lemma preserves_retry_roi (roi : ROI) : preserves P (retry_roi roi).
Proof. apply preserves_disabled_camera, preserves_correct_roi. Qed.

Hypothesis P_roi : forall r c, P c -> P (with_roi r c).

Lemma preserves_set_roi (depth : nat) (roi : ROI) : preserves P (_set_roi depth roi).
Proof.
  revert roi. induction depth as [ | depth IH]; intros roi; cbn [_set_roi].
  - apply preserves_raise.
  - shape; first [ apply preserves_write_roi | apply preserves_retry_roi | apply IH ].
Qed.

End Preservation.

(** ** Trigger mapping *)

Lemma TriggerType_eqb_eq (a b : TriggerType) : TriggerType_eqb a b = true <-> a = b.
Proof.
  destruct a, b; cbn; try (split; [ discriminate | congruence ]);
    try (split; reflexivity).
  rewrite String.eqb_eq. split; congruence.
Qed.

Lemma TriggerMode_eqb_eq (a b : TriggerMode) : TriggerMode_eqb a b = true <-> a = b.
Proof.
  destruct a, b; cbn; try (split; [ discriminate | congruence ]);
    try (split; reflexivity).
  rewrite String.eqb_eq. split; congruence.
Qed.

Lemma native_pair_eqb_eq (a b : string * string) : native_pair_eqb a b = true <-> a = b.
Proof.
  destruct a as [a1 a2], b as [b1 b2]. unfold native_pair_eqb. cbn.
  rewrite andb_true_iff, !String.eqb_eq. split.
  - intros [-> ->]. reflexivity.
  - intros H. inversion H. auto.
Qed.

Lemma native_pair_eqb_neq (a b : string * string) : native_pair_eqb a b = false <-> a <> b.
Proof.
  rewrite <- native_pair_eqb_eq. destruct (native_pair_eqb a b); split; congruence.
Qed.

(** The table the dict display builds: the repeated key appears once. *)
Lemma TRIGGER_TABLE_items :
  TRIGGER_TABLE =
    [ ((SOFTWARE, STROBE), ("XI_TRG_OFF", "XI_TRG_SEL_FRAME_START"));
      ((SOFTWARE, ONCE), ("XI_TRG_SOFTWARE", "XI_TRG_SEL_FRAME_START"));
      ((RISING_EDGE, ONCE), ("XI_TRG_EDGE_RISING", "XI_TRG_SEL_FRAME_START")) ].
Proof. reflexivity. Qed.

Lemma TRIGGER_TABLE_software_once :
  dict_get trigger_key_eqb (SOFTWARE, ONCE) TRIGGER_TABLE = Some software_once.
Proof. reflexivity. Qed.

Lemma dict_get_In {K V : Type} (eqb : K -> K -> bool) (k : K) (x : V) (d : list (K * V)) :
  dict_get eqb k d = Some x -> In x (map snd d).
Proof.
  induction d as [ | [k' x'] d IH]; cbn.
  - discriminate.
  - destruct (eqb k k').
    + intros H. injection H as ->. left. reflexivity.
    + intros H. right. apply IH, H.
Qed.

(** The pairs the table does not map. *)
Lemma TRIGGER_TABLE_unmapped (t : TriggerType) (m : TriggerMode) :
  dict_get trigger_key_eqb (t, m) TRIGGER_TABLE = None <->
  (t, m) <> (SOFTWARE, STROBE) /\ (t, m) <> (SOFTWARE, ONCE) /\ (t, m) <> (RISING_EDGE, ONCE).
Proof.
  rewrite TRIGGER_TABLE_items.
  destruct t, m; cbn; split; intros H;
    try discriminate; try (repeat split; discriminate);
    try (destruct H as (H1 & H2 & H3); congruence).
Qed.

Section TriggerProperties.
Context {dev : Type} {handle : Handle dev}.

(** C8.  [set_trigger] with a (type, mode) pair the table does not map
    raises [UnsupportedFeatureError] with a message naming the type and
    the mode, and leaves the camera as it was: the cached native pair
    is unchanged and nothing is sent to the handle. *)
Theorem set_trigger_unmapped_raises_and_keeps_spec
    (ttype : TriggerType) (tmode : TriggerMode) (c : camera dev) :
  dict_get trigger_key_eqb (ttype, tmode) TRIGGER_TABLE = None ->
  set_trigger ttype tmode c =
    (Raise (UnsupportedFeatureError
              ("TriggerType." ++ TriggerType_name ttype
               ++ " - TriggerMode." ++ TriggerMode_name tmode
               ++ " not supported")%string),
     c).
Proof.
  intros Habsent.
  unfold set_trigger, bind, try_except, TRIGGER_TABLE_getitem.
  rewrite Habsent. reflexivity.
Qed.

Lemma do_trigger_software_once (c : camera dev) :
  _trigger_map c = software_once ->
  _do_trigger c = bind (sdk (set_trigger_software 1)) (fun _ => ret tt) c.
Proof.
  intros Hmap. unfold _do_trigger, TRIGGER_TABLE_getitem.
  rewrite TRIGGER_TABLE_software_once.
  unfold bind at 1. unfold gets. unfold bind at 1. unfold ret at 1.
  rewrite Hmap. reflexivity.
Qed.

Lemma do_trigger_otherwise (c : camera dev) :
  _trigger_map c <> software_once -> _do_trigger c = (Ret tt, c).
Proof.
  intros Hmap. apply native_pair_eqb_neq in Hmap.
  unfold _do_trigger, TRIGGER_TABLE_getitem.
  rewrite TRIGGER_TABLE_software_once.
  unfold bind, gets, ret. rewrite Hmap. reflexivity.
Qed.

(** C2.  With the cached native pair equal to the software/once
    mapping, [trigger] makes the one call [set_trigger_software(1)] and
    returns or raises as the handle does.  With any other cached pair
    [trigger] raises the unsupported-operation error and the camera is
    as before, so no pulse is sent; the hook [_do_trigger] of the
    driver sends none either.  Hence a [trigger] that returns normally
    had the software/once mapping active. *)
Theorem trigger_only_on_software_once (c : camera dev) :
  (_trigger_map c = software_once ->
     forall (r : reply) (d : dev),
       xi (_handle c) (set_trigger_software 1) = (r, d) ->
       fst (trigger c) = match r with Ok _ => Ret tt | Err e => Raise e end /\
       snd (trigger c)
         = with_handle d (mkEvent (set_trigger_software 1) r (_acquiring c)) c)
  /\
  (_trigger_map c <> software_once ->
     (exists msg, trigger c = (Raise (UnsupportedOperationError msg), c)) /\
     soft_trigger c = trigger c /\
     _do_trigger c = (Ret tt, c) /\
     filter is_pulse (calls (snd (trigger c))) = filter is_pulse (calls c))
  /\
  (fst (trigger c) = Ret tt -> _trigger_map c = software_once).
Proof.
  assert (Hother : _trigger_map c <> software_once ->
                   trigger c
                   = (Raise (UnsupportedOperationError
                               "active trigger is not software/once"), c)).
  { intros Hmap. apply native_pair_eqb_neq in Hmap.
    unfold trigger, TRIGGER_TABLE_getitem. rewrite TRIGGER_TABLE_software_once.
    unfold bind, gets, ret. rewrite Hmap. reflexivity. }
  split; [ | split ].
  - intros Hmap r d Hxi.
    assert (Htrig : trigger c = _do_trigger c).
    { unfold trigger, TRIGGER_TABLE_getitem. rewrite TRIGGER_TABLE_software_once.
      unfold bind at 1. unfold gets. unfold bind at 1. unfold ret at 1.
      rewrite Hmap. reflexivity. }
    rewrite Htrig, (do_trigger_software_once c Hmap).
    unfold bind, sdk, ret. rewrite Hxi. destruct r; split; reflexivity.
  - intros Hmap. rewrite (Hother Hmap). repeat split.
    + eexists. reflexivity.
    + unfold soft_trigger. apply Hother, Hmap.
    + apply do_trigger_otherwise, Hmap.
  - intros Hret.
    destruct (native_pair_eqb (_trigger_map c) software_once) eqn:Heq.
    + apply native_pair_eqb_eq, Heq.
    + apply native_pair_eqb_neq in Heq. rewrite (Hother Heq) in Hret. discriminate.
Qed.

End TriggerProperties.

Lemma set_trigger_unmapped_raises_and_keeps_spec_witness :
  set_trigger RISING_EDGE STROBE (bench obliging true true full_frame software_once)
  = (Raise (UnsupportedFeatureError
              "TriggerType.RISING_EDGE - TriggerMode.STROBE not supported"),
     bench obliging true true full_frame software_once).
Proof.
  apply (set_trigger_unmapped_raises_and_keeps_spec RISING_EDGE STROBE).
  reflexivity.
Defined.

Lemma trigger_only_on_software_once_witness :
  fst (trigger (bench obliging true true full_frame software_once)) = Ret tt
  /\ (exists msg,
        trigger (bench obliging true true full_frame
                   ("XI_TRG_OFF", "XI_TRG_SEL_FRAME_START"))
        = (Raise (UnsupportedOperationError msg),
           bench obliging true true full_frame
             ("XI_TRG_OFF", "XI_TRG_SEL_FRAME_START")))
  /\ _trigger_map (bench obliging true true full_frame software_once) = software_once.
Proof.
  split; [ | split ].
  - exact (proj1 (proj1 (trigger_only_on_software_once
                           (bench obliging true true full_frame software_once))
                    eq_refl (Ok 0) (mkScripted obliging 1) eq_refl)).
  - apply (proj1 (proj2 (trigger_only_on_software_once
                           (bench obliging true true full_frame
                              ("XI_TRG_OFF", "XI_TRG_SEL_FRAME_START"))))).
    discriminate.
  - apply (proj2 (proj2 (trigger_only_on_software_once
                           (bench obliging true true full_frame software_once)))).
    reflexivity.
Defined.

(** ** The cached native pair in reachable states *)

Section ReachableTrigger.
Context {dev : Type} {handle : Handle dev}.

Lemma preserves_probe_temperature (P : camera dev -> Prop) (name : string) :
  (forall d ev c, P c -> P (with_handle d ev c)) ->
  (forall n c, P c -> P (with_setting n c)) ->
  preserves P (probe_temperature name).
Proof.
  intros Hh Hs c Hc. unfold probe_temperature, bind, try_except, sdk, ret, raise, modify.
  destruct (xi (_handle c) (get_temp name)) as [[x | e] d]; cbn.
  - apply Hs, Hh, Hc.
  - destruct e as [[s | ] | | | | | | | | | | | | ]; cbn; try (apply Hh, Hc).
    destruct (negb (s =? _XI_NOT_SUPPORTED) && negb (s =? _XI_NOT_IMPLEMENTED));
      cbn; apply Hh, Hc.
Qed.

Lemma native_cached_set_trigger (ttype : TriggerType) (tmode : TriggerMode) :
  preserves native_cached (set_trigger ttype tmode).
Proof.
  intros c Hc. unfold set_trigger, TRIGGER_TABLE_getitem.
  destruct (dict_get trigger_key_eqb (ttype, tmode) TRIGGER_TABLE) as [new_map | ] eqn:Hget.
  - unfold bind at 1. unfold try_except, ret at 1.
    unfold bind at 1. unfold gets at 1.
    destruct (negb (native_pair_eqb new_map (_trigger_map c))); [ | exact Hc ].
    unfold bind.
    destruct (_disabled_camera _ c) as [[u | e] c1] eqn:Hrun.
    + cbn. unfold native_cached. cbn. apply (dict_get_In _ _ _ _ Hget).
    + cbn. change c1 with (snd (Raise (A := unit) e, c1)). rewrite <- Hrun.
      apply (preserves_disabled_camera native_cached); auto.
      apply preserves_bind; [ apply preserves_sdk; auto | intro ].
      apply preserves_bind; [ apply preserves_sdk; auto | intro ].
      apply preserves_ret.
  - unfold bind, try_except, raise. cbn. exact Hc.
Qed.

Lemma native_cached_initialize (depth : nat) :
  preserves native_cached (initialize depth).
Proof.
  unfold initialize, set_roi.
  repeat first
    [ simple apply preserves_ret | simple apply preserves_raise
    | simple apply preserves_gets
    | simple apply preserves_sdk; solve [ auto ]
    | simple apply preserves_modify; solve [ auto ]
    | simple apply native_cached_set_trigger
    | simple apply preserves_probe_temperature; solve [ auto ]
    | simple apply preserves_set_roi; solve [ auto ]
    | simple apply preserves_bind; [ | intro ]
    | match goal with
      | |- preserves _ (if ?b then _ else _) => destruct b
      | |- preserves _ (match ?x with _ => _ end) => destruct x
      end ].
Qed.

Lemma reachable_native_cached (c : camera dev) : reachable c -> native_cached c.
Proof.
  induction 1 as [sn d once Honce | m c Hreach IH].
  - unfold native_cached. cbn. apply (dict_get_In _ _ _ _ Honce).
  - destruct m; cbn [after].
    + apply native_cached_initialize, IH.
    + apply preserves_enable; auto.
    + apply preserves_disable; auto.
    + apply preserves_abort; auto.
    + apply preserves_trigger; auto.
    + apply preserves_trigger; auto.
    + apply native_cached_set_trigger, IH.
    + apply preserves_set_roi; auto.
    + apply preserves_get_roi; auto.
    + apply preserves_set_binning; auto.
    + apply preserves_set_exposure_time; auto.
    + apply preserves_fetch_data; auto.
Qed.

(** C10.  In every reachable state the [trigger_type] property is the
    string that is the first component of the cached native pair and
    [trigger_mode] the string that is its second component: the pair
    is a value of the mapping table, so the type reads as one of the
    trigger-source codes and the mode as the frame-start selector code;
    neither is a member of the [TriggerType] or [TriggerMode]
    enumerations that [set_trigger] takes. *)
Theorem trigger_properties_return_native_codes (c : camera dev) :
  reachable c ->
  trigger_type c = PyStr (fst (_trigger_map c)) /\
  trigger_mode c = PyStr (snd (_trigger_map c)) /\
  In (_trigger_map c) (map snd TRIGGER_TABLE) /\
  In (trigger_type c)
     [PyStr "XI_TRG_OFF"; PyStr "XI_TRG_SOFTWARE"; PyStr "XI_TRG_EDGE_RISING"] /\
  trigger_mode c = PyStr "XI_TRG_SEL_FRAME_START" /\
  (forall t : TriggerType, trigger_type c <> PyTriggerType t) /\
  (forall m : TriggerMode, trigger_mode c <> PyTriggerMode m).
Proof.
  intros Hreach. pose proof (reachable_native_cached c Hreach) as Hin.
  unfold native_cached in Hin. rewrite TRIGGER_TABLE_items in Hin.
  unfold trigger_type, trigger_mode.
  repeat split; try discriminate.
  - rewrite TRIGGER_TABLE_items. exact Hin.
  - cbn in Hin. destruct Hin as [H | [H | [H | []]]]; rewrite <- H; cbn; auto.
  - cbn in Hin. destruct Hin as [H | [H | [H | []]]]; rewrite <- H; reflexivity.
Qed.

End ReachableTrigger.

Lemma trigger_properties_return_native_codes_witness :
  trigger_type (after (call_set_trigger RISING_EDGE ONCE)
                  (XimeaCamera_attributes None (mkScripted obliging 0) software_once))
  = PyStr "XI_TRG_EDGE_RISING".
Proof.
  pose proof (trigger_properties_return_native_codes
                (after (call_set_trigger RISING_EDGE ONCE)
                   (XimeaCamera_attributes None (mkScripted obliging 0) software_once))
                (reachable_after _ _ (reachable_new None (mkScripted obliging 0)
                                        software_once eq_refl))) as H.
  destruct H as [H _]. rewrite H. reflexivity.
Defined.

(** ** Frame fetch *)

Section FetchProperties.
Context {dev : Type} {handle : Handle dev}.

Lemma fetch_data_failed_call (during : bool -> bool) (c : camera dev) (e : exn) (d : dev) :
  _acquiring c = true ->
  xi (_handle c) (get_image 1) = (Err e, d) ->
  _fetch_data during c =
    let waited :=
      with_acquiring (during true)
        (with_handle d (mkEvent (get_image 1) (Err e) true) c) in
    match e with
    | Xi_error status =>
        if status_is _XI_TIMEOUT status then (Ret None, waited)
        else if status_is _XI_ACQUISITION_STOPED status && negb (during true)
             then (Ret None, waited)
             else (Raise e, waited)
    | _ => (Raise e, waited)
    end.
Proof.
  intros Hacq Hxi.
  unfold _fetch_data, bind, gets, try_except, blocking, sdk, ret, raise.
  rewrite Hacq. cbn [negb]. rewrite Hxi. cbn [_acquiring with_handle].
  rewrite Hacq.
  destruct e as [status | | | | | | | | | | | | ]; try reflexivity.
  destruct (status_is _XI_TIMEOUT status); [ reflexivity | ].
  cbn [_acquiring with_acquiring].
  destruct (status_is _XI_ACQUISITION_STOPED status && negb (during true)); reflexivity.
Qed.

(** C7.  A fetch on a camera that is not acquiring returns no data and
    touches nothing.  On an acquiring camera whose [get_image] call
    fails, the fetch writes nothing of its own (the state is the one
    the call left, with the flag as the other threads set it while the
    call blocked) and: a timeout gives no data, and with nothing else
    running the flag is as before; an acquisition-stopped error met
    with the flag cleared in the meantime gives no data; every other
    exception of the handle leaves the fetch unchanged. *)
Theorem fetch_data_filters_errors (during : bool -> bool) (c : camera dev) :
  (_acquiring c = false -> _fetch_data during c = (Ret None, c))
  /\
  (_acquiring c = true ->
     forall (e : exn) (d : dev),
       xi (_handle c) (get_image 1) = (Err e, d) ->
       snd (_fetch_data during c)
         = with_acquiring (during true)
             (with_handle d (mkEvent (get_image 1) (Err e) true) c)
       /\ (e = Xi_error (Some _XI_TIMEOUT) ->
             fst (_fetch_data during c) = Ret None /\
             (during true = true ->
                _acquiring (snd (_fetch_data during c)) = _acquiring c))
       /\ (e = Xi_error (Some _XI_ACQUISITION_STOPED) ->
             during true = false ->
             fst (_fetch_data during c) = Ret None)
       /\ (e <> Xi_error (Some _XI_TIMEOUT) ->
             (e = Xi_error (Some _XI_ACQUISITION_STOPED) -> during true = true) ->
             fst (_fetch_data during c) = Raise e)).
Proof.
  split.
  - intros Hidle. unfold _fetch_data, bind, gets. rewrite Hidle. reflexivity.
  - intros Hacq e d Hxi.
    rewrite (fetch_data_failed_call during c e d Hacq Hxi). cbv zeta.
    repeat split.
    + destruct e as [status | | | | | | | | | | | | ]; try reflexivity.
      destruct (status_is _XI_TIMEOUT status); [ reflexivity | ].
      destruct (status_is _XI_ACQUISITION_STOPED status && negb (during true));
        reflexivity.
    + subst e. reflexivity.
    + subst e. cbn. intros Hquiet. rewrite Hquiet, Hacq. reflexivity.
    + intros -> Hflip. cbn. rewrite Hflip. reflexivity.
    + intros Hnot_timeout Hstopped.
      destruct e as [[s | ] | | | | | | | | | | | | ]; try reflexivity.
      cbn [status_is].
      destruct (Z.eqb_spec s _XI_TIMEOUT) as [-> | _]; [ congruence | ].
      destruct (Z.eqb_spec s _XI_ACQUISITION_STOPED) as [-> | _]; [ | reflexivity ].
      rewrite (Hstopped eq_refl). reflexivity.
Qed.

End FetchProperties.

Lemma fetch_data_filters_errors_witness :
  fst (_fetch_data (fun b => b)
         (bench (refusing (fun _ => true) (Xi_error (Some _XI_TIMEOUT))) true true
            full_frame software_once)) = Ret None
  /\ fst (_fetch_data (fun _ => false)
            (bench (refusing (fun _ => true) (Xi_error (Some _XI_ACQUISITION_STOPED)))
               true true full_frame software_once)) = Ret None
  /\ fst (_fetch_data (fun b => b)
            (bench (refusing (fun _ => true) (Xi_error (Some _XI_ACQUISITION_STOPED)))
               true true full_frame software_once))
     = Raise (Xi_error (Some _XI_ACQUISITION_STOPED))
  /\ _fetch_data (fun b => b) (bench obliging true false full_frame software_once)
     = (Ret None, bench obliging true false full_frame software_once).
Proof.
  split; [ | split; [ | split ] ].
  - destruct (proj2 (fetch_data_filters_errors (fun b => b)
                       (bench (refusing (fun _ => true) (Xi_error (Some _XI_TIMEOUT)))
                          true true full_frame software_once))
                eq_refl (Xi_error (Some _XI_TIMEOUT))
                (mkScripted (refusing (fun _ => true) (Xi_error (Some _XI_TIMEOUT))) 1)
                eq_refl) as (_ & Htimeout & _ & _).
    exact (proj1 (Htimeout eq_refl)).
  - destruct (proj2 (fetch_data_filters_errors (fun _ => false)
                       (bench (refusing (fun _ => true)
                                 (Xi_error (Some _XI_ACQUISITION_STOPED)))
                          true true full_frame software_once))
                eq_refl (Xi_error (Some _XI_ACQUISITION_STOPED))
                (mkScripted (refusing (fun _ => true)
                               (Xi_error (Some _XI_ACQUISITION_STOPED))) 1)
                eq_refl) as (_ & _ & Hstopped & _).
    exact (Hstopped eq_refl eq_refl).
  - destruct (proj2 (fetch_data_filters_errors (fun b => b)
                       (bench (refusing (fun _ => true)
                                 (Xi_error (Some _XI_ACQUISITION_STOPED)))
                          true true full_frame software_once))
                eq_refl (Xi_error (Some _XI_ACQUISITION_STOPED))
                (mkScripted (refusing (fun _ => true)
                               (Xi_error (Some _XI_ACQUISITION_STOPED))) 1)
                eq_refl) as (_ & _ & _ & Hother).
    apply Hother.
    + discriminate.
    + reflexivity.
  - apply (proj1 (fetch_data_filters_errors (fun b => b)
                    (bench obliging true false full_frame software_once))).
    reflexivity.
Defined.

(** ** Which methods surface a failure of the hardware *)

Section Surfacing.
Context {dev : Type} {handle : Handle dev}.

Lemma surfaces_ret {A : Type} (a : A) : surfaces (dev := dev) (ret a).
Proof. intros c. exists []. cbn. rewrite app_nil_r. auto. Qed.

Lemma surfaces_raise {A : Type} (e : exn) : surfaces (dev := dev) (raise (A := A) e).
Proof. intros c. exists []. cbn. rewrite app_nil_r. auto. Qed.

Lemma surfaces_gets {A : Type} (f : camera dev -> A) : surfaces (gets f).
Proof. intros c. exists []. cbn. rewrite app_nil_r. auto. Qed.

Lemma surfaces_evaluate {A : Type} (o : outcome A) : surfaces (dev := dev) (evaluate o).
Proof. intros c. exists []. cbn. rewrite app_nil_r. auto. Qed.

Lemma surfaces_modify (g : camera dev -> camera dev) :
  (forall c, calls (g c) = calls c) -> surfaces (modify g).
Proof. intros Hg c. exists []. cbn. rewrite app_nil_r, Hg. auto. Qed.

Lemma surfaces_sdk (q : call) : surfaces (sdk q).
Proof.
  intros c. unfold sdk. destruct (xi (_handle c) q) as [[x | e] d]; cbn.
  - eexists. split; [ reflexivity | ]. reflexivity.
  - eexists. split; [ reflexivity | ]. discriminate.
Qed.

Lemma surfaces_bind {A B : Type} (m : M (camera dev) A) (k : A -> M (camera dev) B) :
  surfaces m -> (forall a, surfaces (k a)) -> surfaces (bind m k).
Proof.
  intros Hm Hk c. unfold bind.
  destruct (Hm c) as (new1 & Hcalls1 & Hok1).
  destruct (m c) as [[a | e] c1]; cbn in *.
  - destruct (Hk a c1) as (new2 & Hcalls2 & Hok2).
    exists (new1 ++ new2). split.
    + rewrite Hcalls2, Hcalls1, app_assoc. reflexivity.
    + intros b Hb. rewrite forallb_app, (Hok1 a eq_refl), (Hok2 b Hb). reflexivity.
  - exists new1. split; [ exact Hcalls1 | discriminate ].
Qed.

(** A handler that always ends by raising keeps the property. *)
Lemma surfaces_try_except {A : Type} (body : M (camera dev) A)
    (handler : exn -> M (camera dev) A) :
  surfaces body -> (forall e, surfaces (handler e)) ->
  (forall e c a, fst (handler e c) <> Ret a) ->
  surfaces (try_except body handler).
Proof.
  intros Hb Hh Hraises c. unfold try_except.
  destruct (Hb c) as (new1 & Hcalls1 & Hok1).
  destruct (body c) as [[a | e] c1]; cbn in *.
  - exists new1. split; [ exact Hcalls1 | exact Hok1 ].
  - destruct (Hh e c1) as (new2 & Hcalls2 & _).
    exists (new1 ++ new2). split.
    + rewrite Hcalls2, Hcalls1, app_assoc. reflexivity.
    + intros a0 Ha. destruct (Hraises e c1 a0 Ha).
Qed.

Lemma surfaces_try_finally {A B : Type} (body : M (camera dev) A)
    (final : M (camera dev) B) :
  surfaces body -> surfaces final -> surfaces (try_finally body final).
Proof.
  intros Hb Hf c. unfold try_finally.
  destruct (Hb c) as (new1 & Hcalls1 & Hok1).
  destruct (body c) as [r c1]; cbn in *.
  destruct (Hf c1) as (new2 & Hcalls2 & Hok2).
  destruct (final c1) as [[b | e] c2]; cbn in *.
  - exists (new1 ++ new2). split.
    + rewrite Hcalls2, Hcalls1, app_assoc. reflexivity.
    + intros a Ha. rewrite forallb_app, (Hok1 a Ha), (Hok2 b eq_refl). reflexivity.
  - exists (new1 ++ new2). split.
    + rewrite Hcalls2, Hcalls1, app_assoc. reflexivity.
    + discriminate.
Qed.

Ltac surfacing :=
  repeat first
    [ simple apply surfaces_ret | simple apply surfaces_raise
    | simple apply surfaces_gets | simple apply surfaces_evaluate
    | simple apply surfaces_sdk
    | simple apply surfaces_modify; intro; reflexivity
    | simple apply surfaces_bind; [ | intro ]
    | simple apply surfaces_try_finally
    | match goal with
      | |- surfaces (if ?b then _ else _) => destruct b
      | |- surfaces (match ?x with _ => _ end) => destruct x
      end
    | assumption ].

Lemma surfaces_abort : surfaces (dev := dev) abort.
Proof.
  unfold abort. surfacing.
  apply surfaces_try_except.
  - surfacing.
  - intro. surfacing.
  - intros ? ? ?. cbn. discriminate.
Qed.

Lemma surfaces_do_enable : surfaces (dev := dev) _do_enable.
Proof. unfold _do_enable. surfacing. apply surfaces_abort. Qed.

Lemma surfaces_enable : surfaces (dev := dev) enable.
Proof. unfold enable. surfacing. apply surfaces_do_enable. Qed.

Lemma surfaces_disable : surfaces (dev := dev) disable.
Proof. unfold disable, _do_disable. surfacing. apply surfaces_abort. Qed.

Lemma surfaces_disabled_camera {A : Type} (body : M (camera dev) A) :
  surfaces body -> surfaces (_disabled_camera body).
Proof.
  intros Hbody. unfold _disabled_camera. surfacing.
  - apply surfaces_disable.
  - apply surfaces_enable.
Qed.

Lemma surfaces_set_trigger (ttype : TriggerType) (tmode : TriggerMode) :
  surfaces (dev := dev) (set_trigger ttype tmode).
Proof.
  unfold set_trigger. surfacing.
  - apply surfaces_try_except.
    + unfold TRIGGER_TABLE_getitem. surfacing.
    + intro. surfacing.
    + intros e ? ?. destruct e; cbn; discriminate.
  - apply surfaces_disabled_camera. surfacing.
Qed.

Lemma surfaces_correct_roi (roi : ROI) : surfaces (dev := dev) (correct_roi roi).
Proof.
  unfold correct_roi. cbv zeta. surfacing; unfold correct_axis, quantize; surfacing.
Qed.

Lemma set_exposure_time_returns {float : Type} (us : float -> outcome Z)
    (value : float) (c : camera dev) :
  set_exposure_time us value c =
    match us value with
    | Ret x =>
        (Ret tt,
         with_handle (snd (xi (_handle c) (set_exposure_direct x)))
           (mkEvent (set_exposure_direct x)
              (fst (xi (_handle c) (set_exposure_direct x))) (_acquiring c))
           c)
    | Raise _ => (Ret tt, c)
    end.
Proof.
  unfold set_exposure_time, try_except, bind, evaluate, sdk, ret.
  destruct (us value) as [x | e]; [ | reflexivity ].
  destruct (xi (_handle c) (set_exposure_direct x)) as [[y | e] d]; reflexivity.
Qed.

(** C9 (amended).  The trigger setter and the acquisition transitions
    surface every failure of the hardware: [set_trigger], [_do_enable],
    [_do_disable], [abort], and [enable] and [disable] around them,
    return normally only if the handle accepted every call they made.
    [set_exposure_time] does not, it never raises: when the conversion
    of the value to microseconds raises, the handle is not called and
    the camera is left as it was; otherwise the one exposure write is
    made, and the method returns normally whatever the handle answered,
    so a rejected exposure is discarded. *)
Theorem setters_surface_failures_except_exposure :
  (forall ttype tmode, surfaces (dev := dev) (set_trigger ttype tmode)) /\
  surfaces (dev := dev) _do_enable /\
  surfaces (dev := dev) _do_disable /\
  surfaces (dev := dev) abort /\
  surfaces (dev := dev) enable /\
  surfaces (dev := dev) disable /\
  (forall (float : Type) (us : float -> outcome Z) (value : float) (c : camera dev),
     fst (set_exposure_time us value c) = Ret tt /\
     match us value with
     | Ret x =>
         calls (snd (set_exposure_time us value c))
           = calls c ++ [mkEvent (set_exposure_direct x)
                           (fst (xi (_handle c) (set_exposure_direct x)))
                           (_acquiring c)]
     | Raise _ => snd (set_exposure_time us value c) = c
     end).
Proof.
  split; [ apply surfaces_set_trigger | ].
  split; [ apply surfaces_do_enable | ].
  split; [ unfold _do_disable; surfacing; apply surfaces_abort | ].
  split; [ apply surfaces_abort | ].
  split; [ apply surfaces_enable | ].
  split; [ apply surfaces_disable | ].
  intros float us value c. rewrite set_exposure_time_returns.
  destruct (us value) as [x | e]; split; reflexivity.
Qed.

End Surfacing.

(** C9 as stated fails: the handle rejects the exposure write and
    [set_exposure_time] returns normally. *)
Lemma set_exposure_time_discards_hardware_error :
  let c := bench (refusing (fun _ => true) (Xi_error (Some _XI_INVALID_ARGUMENTS)))
             false false full_frame software_once in
  fst (xi (_handle c) (set_exposure_direct 1000))
    = Err (Xi_error (Some _XI_INVALID_ARGUMENTS))
  /\ fst (set_exposure_time (fun us : Z => Ret us) 1000 c) = Ret tt
  /\ map answer (calls (snd (set_exposure_time (fun us : Z => Ret us) 1000 c)))
     = [Err (Xi_error (Some _XI_INVALID_ARGUMENTS))].
Proof. cbv zeta. split; [ | split ]; vm_compute; reflexivity. Qed.

(** ** Scoped reconfiguration *)

Section ScopedProperties.
Context {dev : Type} {handle : Handle dev}.

Lemma disabled_camera_off {A : Type} (body : M (camera dev) A) (c : camera dev) :
  enabled c = false -> _disabled_camera body c = body c.
Proof.
  intros Hoff. unfold _disabled_camera, bind, gets. rewrite Hoff. reflexivity.
Qed.

Lemma disabled_camera_on {A : Type} (body : M (camera dev) A) (c : camera dev) :
  enabled c = true ->
  _disabled_camera body c = try_finally (bind disable (fun _ => body)) enable c.
Proof.
  intros Hon. unfold _disabled_camera, bind at 1, gets. rewrite Hon. reflexivity.
Qed.









End ScopedProperties.



(** ** Rounding to the increment grid *)

Lemma nearest_even_quotient_spec (n d : Z) :
  d <> 0 -> is_nearest_even n d (nearest_even_quotient n d).
Proof.
  intros Hd. unfold is_nearest_even, nearest_even_quotient.
  pose proof (Z.div_mod n d Hd) as Hdiv.
  assert (Hr : 0 <= n mod d < d \/ d < n mod d <= 0).
  { destruct (Z_lt_ge_dec 0 d) as [Hpos | Hneg].
    - left. apply Z.mod_pos_bound, Hpos.
    - right. apply Z.mod_neg_bound. lia. }
  set (q := n / d) in *. set (r := n mod d) in *.
  destruct (Z.ltb_spec (2 * Z.abs r) (Z.abs d)) as [H1 | H1].
  - left. replace (n - q * d) with r by lia. exact H1.
  - destruct (Z.ltb_spec (Z.abs d) (2 * Z.abs r)) as [H2 | H2].
    + left. replace (n - (q + 1) * d) with (r - d) by lia. lia.
    + destruct (Z.even q) eqn:Hq.
      * right. split; [ | exact Hq ]. replace (n - q * d) with r by lia. lia.
      * right. split.
        -- replace (n - (q + 1) * d) with (r - d) by lia. lia.
        -- rewrite Z.even_add, Hq. reflexivity.
Qed.

Lemma nearest_even_unique (n d r r' : Z) :
  d <> 0 -> is_nearest_even n d r -> is_nearest_even n d r' -> r = r'.
Proof.
  intros Hd H H'.
  assert (Hclose : Z.abs (r - r') * Z.abs d < 2 * Z.abs d ->  Z.abs (r - r') <= 1).
  { intros Hlt. nia. }
  assert (Hdist : Z.abs ((r - r') * d) <= Z.abs (n - r * d) + Z.abs (n - r' * d)).
  { replace ((r - r') * d) with ((n - r' * d) - (n - r * d)) by ring. lia. }
  rewrite Z.abs_mul in Hdist.
  destruct H as [H | [H He]], H' as [H' | [H' He']].
  - assert (Z.abs (r - r') * Z.abs d < Z.abs d) by lia. nia.
  - assert (Z.abs (r - r') * Z.abs d < Z.abs d) by lia. nia.
  - assert (Z.abs (r - r') * Z.abs d < Z.abs d) by lia. nia.
  - assert (Hone : Z.abs (r - r') <= 1) by nia.
    destruct (Z.eq_dec r r') as [ | Hne]; [ assumption | exfalso ].
    assert (Hcase : r = r' + 1 \/ r' = r + 1) by lia.
    destruct Hcase as [-> | ->].
    + rewrite Z.even_add, He' in He. discriminate.
    + rewrite Z.even_add, He in He'. discriminate.
Qed.

Lemma double_rounding (A B D : Z) :
  0 < B -> B < D -> Z.even D = true ->
  nearest_even_quotient (nearest_even_quotient (A * D) B) D = nearest_even_quotient A B.
Proof.
  intros HB HD Heven.
  assert (HB0 : B <> 0) by lia. assert (HD0 : D <> 0) by lia.
  pose proof (nearest_even_quotient_spec A B HB0) as Hr0.
  pose proof (nearest_even_quotient_spec (A * D) B HB0) as Hm.
  set (r0 := nearest_even_quotient A B) in *.
  set (m := nearest_even_quotient (A * D) B) in *.
  apply (nearest_even_unique m D); [ exact HD0 | apply nearest_even_quotient_spec, HD0 | ].
  assert (Hrel : B * (m - r0 * D) = D * (A - r0 * B) - (A * D - m * B)) by ring.
  assert (Hw : 2 * Z.abs (A * D - m * B) <= B).
  { destruct Hm as [Hm | [Hm _]]; lia. }
  destruct Hr0 as [Hs | [Ht He]].
  - left.
    assert (Hu : 2 * Z.abs (A - r0 * B) <= B - 1) by lia.
    assert (Hbound : 2 * Z.abs (B * (m - r0 * D)) < D * B).
    { rewrite Hrel.
      assert (HX : Z.abs (D * (A - r0 * B)) = D * Z.abs (A - r0 * B)).
      { rewrite Z.abs_mul, (Z.abs_eq D) by lia. reflexivity. }
      remember (D * (A - r0 * B)) as X. remember (A * D - m * B) as w.
      remember (Z.abs (A - r0 * B)) as au.
      assert (Z.abs (X - w) <= Z.abs X + Z.abs w) by lia.
      nia. }
    rewrite Z.abs_mul, (Z.abs_eq B) in Hbound by lia.
    rewrite (Z.abs_eq D) by lia. nia.
  - right. split; [ | exact He ].
    apply Z.even_spec in Heven. destruct Heven as [D' HD'].
    rewrite (Z.abs_eq B) in Ht by lia.
    assert (Hex : exists s, (s = 1 \/ s = -1) /\ 2 * (A - r0 * B) = s * B).
    { destruct (Z_lt_ge_dec (A - r0 * B) 0).
      - exists (-1). split; [ right; reflexivity | lia ].
      - exists 1. split; [ left; reflexivity | lia ]. }
    destruct Hex as (s & Hs & Hu).
    assert (Hm' : is_nearest_even (A * D) B (r0 * D + s * D')).
    { left. replace (A * D - (r0 * D + s * D') * B) with 0; [ cbn; lia | ].
      subst D. nia. }
    assert (Heq : m = r0 * D + s * D').
    { apply (nearest_even_unique (A * D) B); auto. }
    rewrite Heq. replace (r0 * D + s * D' - r0 * D) with (s * D') by ring.
    rewrite (Z.abs_eq D) by lia. destruct Hs as [-> | ->]; lia.
Qed.

Lemma quotient_exponent_below (A B : Z) :
  0 < A -> 0 < B ->
  (0 <= quotient_exponent A B -> B * 2 ^ quotient_exponent A B <= A) /\
  (quotient_exponent A B < 0 -> B <= A * 2 ^ (- quotient_exponent A B)).
Proof.
  intros HA HB. unfold quotient_exponent.
  pose proof (Z.log2_spec A HA) as [HlA _].
  pose proof (Z.log2_spec B HB) as [_ HlB].
  pose proof (Z.log2_nonneg A) as HnA. pose proof (Z.log2_nonneg B) as HnB.
  set (lA := Z.log2 A) in *. set (lB := Z.log2 B) in *.
  destruct (Z.leb_spec 0 (lA - lB)) as [He0 | He0].
  - destruct (Z.leb_spec (B * 2 ^ (lA - lB)) A) as [Ht | Ht].
    + split; [ intros _; exact Ht | lia ].
    + split.
      * intros He.
        assert (Hpow : 2 ^ Z.succ lB * 2 ^ (lA - lB - 1) = 2 ^ lA).
        { rewrite <- Z.pow_add_r by lia. f_equal; lia. }
        assert (0 < 2 ^ (lA - lB - 1)) by (apply Z.pow_pos_nonneg; lia).
        nia.
      * intros He. assert (Hz : lA - lB = 0) by lia.
        replace (- (lA - lB - 1)) with 1 by lia.
        assert (Hpow : 2 ^ Z.succ lB = 2 * 2 ^ lA).
        { replace lA with lB by lia. rewrite Z.pow_succ_r by lia. reflexivity. }
        lia.
  - destruct (Z.leb_spec B (A * 2 ^ (- (lA - lB)))) as [Ht | Ht].
    + split; [ lia | intros _; exact Ht ].
    + split; [ lia | ].
      intros _.
      assert (Hpow : 2 ^ lA * 2 ^ (- (lA - lB - 1)) = 2 ^ Z.succ lB).
      { rewrite <- Z.pow_add_r by lia. f_equal; lia. }
      assert (0 < 2 ^ (- (lA - lB - 1))) by (apply Z.pow_pos_nonneg; lia).
      nia.
Qed.

Lemma true_div_small (A B : Z) :
  0 < A < 2 ^ 52 -> 0 < B ->
  exists m t,
    true_div A B = Some (m, t) /\ round_float m t = nearest_even_quotient A B.
Proof.
  intros [HA HA52] HB.
  destruct (quotient_exponent_below A B HA HB) as [Hnonneg Hneg].
  unfold true_div.
  destruct (Z.eqb_spec A 0) as [ | _ ]; [ lia | ].
  set (e := quotient_exponent A B) in *.
  assert (He : e <= 51).
  { destruct (Z_lt_ge_dec e 52) as [ | Hbig ]; [ lia | exfalso ].
    assert (H52 : 2 ^ 52 <= 2 ^ e) by (apply Z.pow_le_mono_r; lia).
    specialize (Hnonneg ltac:(lia)). nia. }
  set (t := Z.max (e - 52) (-1074)).
  assert (Ht : t < 0) by (unfold t; lia).
  assert (Htest : (0 <=? t) = false) by (apply Z.leb_gt; exact Ht).
  cbv zeta. fold e. fold t. rewrite Htest. cbn [andb].
  eexists. eexists. split; [ reflexivity | ].
  unfold round_float, in_units. rewrite Htest.
  set (D := 2 ^ (- t)).
  assert (HDpos : 0 < D) by (apply Z.pow_pos_nonneg; lia).
  assert (HDeven : Z.even D = true).
  { unfold D. rewrite Z.even_pow by lia. reflexivity. }
  destruct (Z_lt_ge_dec B D) as [Hlt | Hge].
  - apply double_rounding; assumption.
  - (* only in the subnormal range: both roundings give 0 *)
    assert (Hsub : t = -1074).
    { destruct (Z.eq_dec t (-1074)) as [ | Hnorm ]; [ assumption | exfalso ].
      assert (Hte : t = e - 52) by (unfold t in *; lia).
      assert (HD : D = 2 ^ (52 - e)) by (unfold D; f_equal; lia).
      destruct (Z_lt_ge_dec e 0) as [He0 | He0].
      - specialize (Hneg He0).
        assert (Hpow : 2 ^ 52 * 2 ^ (- e) = 2 ^ (52 - e)).
        { rewrite <- Z.pow_add_r by lia. f_equal; lia. }
        assert (0 < 2 ^ (- e)) by (apply Z.pow_pos_nonneg; lia).
        nia.
      - specialize (Hnonneg ltac:(lia)).
        assert (Hpow : 2 ^ (52 - e) * 2 ^ e = 2 ^ 52).
        { rewrite <- Z.pow_add_r by lia. f_equal; lia. }
        assert (0 < 2 ^ e) by (apply Z.pow_pos_nonneg; lia).
        nia. }
    assert (HD : 2 ^ 53 < D).
    { unfold D. rewrite Hsub. apply Z.pow_lt_mono_r; lia. }
    assert (H53 : 2 ^ 53 = 2 * 2 ^ 52) by reflexivity.
    assert (HB0 : B <> 0) by lia. assert (HD0 : D <> 0) by lia.
    pose proof (nearest_even_quotient_spec (A * D) B HB0) as Hm.
    set (m := nearest_even_quotient (A * D) B) in *.
    assert (Hmw : 2 * Z.abs (A * D - m * B) <= B).
    { destruct Hm as [Hm | [Hm _]]; lia. }
    assert (Hm0 : 0 <= m <= A) by nia.
    transitivity 0.
    + apply (nearest_even_unique m D); [ exact HD0 | apply nearest_even_quotient_spec, HD0 | ].
      left. lia.
    + apply (nearest_even_unique A B); [ exact HB0 | | apply nearest_even_quotient_spec, HB0 ].
      left. lia.
Qed.

Lemma nearest_even_quotient_zero (b : Z) : b <> 0 -> nearest_even_quotient 0 b = 0.
Proof.
  intros Hb. symmetry.
  apply (nearest_even_unique 0 b); [ exact Hb | | apply nearest_even_quotient_spec, Hb ].
  left. cbn. lia.
Qed.

Lemma nearest_even_quotient_sign (a b : Z) :
  b <> 0 ->
  Z.sgn a * Z.sgn b * nearest_even_quotient (Z.abs a) (Z.abs b) = nearest_even_quotient a b.
Proof.
  intros Hb.
  assert (Hab : Z.abs b <> 0) by lia.
  pose proof (nearest_even_quotient_spec (Z.abs a) (Z.abs b) Hab) as Hr.
  set (r := nearest_even_quotient (Z.abs a) (Z.abs b)) in *.
  destruct (Z.eq_dec a 0) as [-> | Ha].
  - cbn. rewrite nearest_even_quotient_zero by exact Hb. reflexivity.
  - apply (nearest_even_unique a b); [ exact Hb | | apply nearest_even_quotient_spec, Hb ].
    unfold is_nearest_even in *. rewrite Z.abs_idemp in Hr.
    assert (Hcase : (Z.sgn a * Z.sgn b = 1 /\ Z.abs (a - r * b) = Z.abs (Z.abs a - r * Z.abs b))
                    \/ (Z.sgn a * Z.sgn b = -1 /\
                        Z.abs (a + r * b) = Z.abs (Z.abs a - r * Z.abs b))).
    { destruct (Z_lt_ge_dec a 0), (Z_lt_ge_dec b 0);
        [ left | right | right | left ];
        (split; [ rewrite ?(Z.sgn_neg a), ?(Z.sgn_pos a), ?(Z.sgn_neg b), ?(Z.sgn_pos b) by lia;
                  reflexivity
                | rewrite ?(Z.abs_neq a), ?(Z.abs_eq a), ?(Z.abs_neq b), ?(Z.abs_eq b) by lia;
                  lia ]). }
    destruct Hcase as [[-> Habs] | [-> Habs]].
    + replace (1 * r) with r by lia. rewrite Habs. exact Hr.
    + replace (-1 * r) with (- r) by lia.
      replace (a - - r * b) with (a + r * b) by ring. rewrite Habs.
      rewrite Z.even_opp. exact Hr.
Qed.

Lemma round_true_div_small (a b : Z) :
  Z.abs a < 2 ^ 52 -> b <> 0 ->
  round_true_div a b = Some (nearest_even_quotient a b).
Proof.
  intros Ha Hb. unfold round_true_div.
  destruct (Z.eq_dec a 0) as [-> | Ha0].
  - cbn. rewrite nearest_even_quotient_zero by exact Hb. reflexivity.
  - destruct (true_div_small (Z.abs a) (Z.abs b)) as (m & t & Hdiv & Hround);
      [ lia | lia | ].
    rewrite Hdiv, Hround, nearest_even_quotient_sign by exact Hb. reflexivity.
Qed.

(** Below [2 ^ 52] in magnitude the correction is exact: the double of
    the quotient rounds to the integer the quotient itself rounds to. *)
Lemma quantized_small (x incr : Z) :
  incr <> 0 -> Z.abs x < 2 ^ 52 ->
  quantized x incr = Ret (nearest_even_quotient x incr * incr).
Proof.
  intros Hincr Hx. unfold quantized.
  destruct (Z.eqb_spec incr 0) as [ | _ ]; [ contradiction | ].
  destruct (Z.eqb_spec (x mod incr) 0) as [Hon | Hoff]; cbn [negb].
  - f_equal. unfold nearest_even_quotient. rewrite Hon.
    assert (Htest : (2 * Z.abs 0 <? Z.abs incr) = true) by (apply Z.ltb_lt; cbn; lia).
    rewrite Htest. pose proof (Z.div_mod x incr Hincr). lia.
  - rewrite (round_true_div_small x incr Hx Hincr). reflexivity.
Qed.

Lemma quantized_multiple (x incr x' : Z) :
  quantized x incr = Ret x' -> incr <> 0 /\ x' mod incr = 0.
Proof.
  unfold quantized.
  destruct (Z.eqb_spec incr 0) as [ | Hincr]; [ discriminate | ].
  destruct (Z.eqb_spec (x mod incr) 0) as [Hon | Hoff]; cbn [negb].
  - intros H. injection H as <-. auto.
  - destruct (round_true_div x incr) as [r | ]; [ | discriminate ].
    intros H. injection H as <-. split; [ exact Hincr | apply Z.mod_mul, Hincr ].
Qed.

Lemma rounded_to_grid_nearest (x incr : Z) :
  incr <> 0 -> rounded_to_grid x (nearest_even_quotient x incr * incr) incr.
Proof.
  intros Hincr.
  pose proof (nearest_even_quotient_spec x incr Hincr) as Hnear.
  split; [ exact Hincr | ]. split; [ reflexivity | ]. split.
  - rewrite <- Z.abs_opp.
    replace (- (nearest_even_quotient x incr * incr - x))
      with (x - nearest_even_quotient x incr * incr) by lia.
    destruct Hnear as [Hnear | [Hnear _]]; lia.
  - split.
    + intros Hne Hon. apply Hne. unfold nearest_even_quotient. rewrite Hon.
      assert (Htest : (2 * Z.abs 0 <? Z.abs incr) = true) by (apply Z.ltb_lt; cbn; lia).
      rewrite Htest. pose proof (Z.div_mod x incr Hincr). lia.
    + intros Hoff Heq. apply Hoff. rewrite <- Heq. apply Z.mod_mul, Hincr.
Qed.

Section RoiProperties.
Context {dev : Type} {handle : Handle dev}.

Lemma correct_axis_kept (x : Z) (mirrored : ROI -> Z) (g : call) (set : Z -> call)
    (c c' : camera dev) (x' : Z) :
  correct_axis x mirrored g set c = (Ret x', c') ->
  _roi c' = _roi c /\ (x = mirrored (_roi c) -> x' = x).
Proof.
  intros Hrun. split.
  - pose proof (preserves_correct_axis (fun s => _roi s = _roi c)
                  (fun _ _ _ H => H) x mirrored g set c eq_refl) as Hroi.
    rewrite Hrun in Hroi. exact Hroi.
  - intros Hsame. revert Hrun. unfold correct_axis, bind, gets.
    destruct (Z.eqb_spec x (mirrored (_roi c))) as [_ | Hdiff]; [ | contradiction ].
    cbn [negb]. unfold ret. intros H. injection H as <- _. reflexivity.
Qed.

Lemma correct_roi_kept (roi r : ROI) (c c' : camera dev) :
  correct_roi roi c = (Ret r, c') ->
  (height roi = height (_roi c) -> height r = height roi) /\
  (width roi = width (_roi c) -> width r = width roi) /\
  (left roi = left (_roi c) -> left r = left roi) /\
  (top roi = top (_roi c) -> top r = top roi).
Proof.
  unfold correct_roi. cbv zeta. unfold bind.
  destruct (correct_axis (height roi) _ _ _ c) as [[h1 | e] c1] eqn:H1; [ | discriminate ].
  destruct (correct_axis (width roi) _ _ _ c1) as [[w1 | e] c2] eqn:H2; [ | discriminate ].
  destruct (correct_axis (left roi) _ _ _ c2) as [[l1 | e] c3] eqn:H3; [ | discriminate ].
  destruct (correct_axis (top roi) _ _ _ c3) as [[t1 | e] c4] eqn:H4; [ | discriminate ].
  unfold ret. intros H. injection H as <- <-.
  apply correct_axis_kept in H1, H2, H3, H4.
  destruct H1 as [R1 A1], H2 as [R2 A2], H3 as [R3 A3], H4 as [R4 A4].
  rewrite R2, R1 in A3. rewrite R3, R2, R1 in A4. rewrite R1 in A2.
  cbn [height width left top]. auto.
Qed.

Lemma roi_kept_by_write (roi : ROI) (c : camera dev) :
  _roi (snd (write_roi roi c)) = _roi c.
Proof.
  apply (preserves_write_roi (fun s => _roi s = _roi c)); auto.
Qed.

Lemma roi_kept_by_retry (roi : ROI) (c : camera dev) :
  _roi (snd (retry_roi roi c)) = _roi c.
Proof.
  apply (preserves_retry_roi (fun s => _roi s = _roi c)); auto.
Qed.

(** A [with _disabled_camera] statement that completes ran its body to
    completion, between calls of its own. *)
Lemma disabled_camera_ret {A : Type} (body : M (camera dev) A)
    (c c2 : camera dev) (r : A) :
  _disabled_camera body c = (Ret r, c2) ->
  exists s s' pre post,
    body s = (Ret r, s') /\
    calls s = calls c ++ pre /\ calls c2 = calls s' ++ post /\
    _roi s = _roi c.
Proof.
  destruct (enabled c) eqn:Hen.
  - rewrite (disabled_camera_on body c Hen). unfold try_finally, bind.
    destruct (surfaces_disable c) as (pre & Hpre & _).
    pose proof (preserves_disable (fun s => _roi s = _roi c)
                  (fun _ _ _ H => H) (fun _ _ H => H) (fun _ _ H => H) c eq_refl) as Hroi.
    destruct (disable c) as [[u | e] s]; cbn in Hpre, Hroi.
    + destruct (body s) as [rb s'] eqn:Hbody.
      destruct (surfaces_enable s') as (post & Hpost & _).
      destruct (enable s') as [[b | e] c3]; cbn in Hpost; [ | discriminate ].
      intros H. injection H as -> ->.
      exists s, s', pre, post. auto.
    + destruct (enable s) as [[b | e'] c3]; discriminate.
  - rewrite (disabled_camera_off body c Hen). intros Hbody.
    exists c, c2, [], []. rewrite !app_nil_r. auto.
Qed.

Lemma retry_roi_kept (roi r : ROI) (c c' : camera dev) :
  retry_roi roi c = (Ret r, c') ->
  (height roi = height (_roi c) -> height r = height roi) /\
  (width roi = width (_roi c) -> width r = width roi) /\
  (left roi = left (_roi c) -> left r = left roi) /\
  (top roi = top (_roi c) -> top r = top roi).
Proof.
  intros Hrun. apply disabled_camera_ret in Hrun.
  destruct Hrun as (s & s' & pre & post & Hbody & _ & _ & Hroi).
  apply correct_roi_kept in Hbody. rewrite Hroi in Hbody. exact Hbody.
Qed.

(** How [_set_roi] ends once its first write sequence has raised an
    [Xi_error] with a status. *)
Lemma set_roi_after_Xi_error (depth : nat) (roi : ROI) (c c1 : camera dev) (s : Z) :
  exceeds roi (_sensor_shape c) = false ->
  write_roi roi c = (Raise (Xi_error (Some s)), c1) ->
  _set_roi (S depth) roi c =
    if s =? _XI_INVALID_ARGUMENTS then
      match retry_roi roi c1 with
      | (Ret r, c2) => (Ret true, with_roi r c2)
      | (Raise e, c2) => (Raise e, c2)
      end
    else (Ret true, with_roi roi c1).
Proof.
  intros Hfits Hwrite. cbn [_set_roi].
  unfold bind at 1. unfold gets at 1. rewrite Hfits.
  unfold bind at 1. unfold try_except. unfold bind at 1. rewrite Hwrite.
  destruct (s =? _XI_INVALID_ARGUMENTS).
  - destruct (retry_roi roi c1) as [[r | e] c2]; reflexivity.
  - reflexivity.
Qed.

Lemma set_roi_ret_fits (depth : nat) (roi : ROI) (c c' : camera dev) (b : bool) :
  _set_roi depth roi c = (Ret b, c') ->
  exceeds roi (_sensor_shape c) = false.
Proof.
  destruct depth as [ | depth]; cbn [_set_roi]; [ discriminate | ].
  unfold bind at 1. unfold gets at 1.
  destruct (exceeds roi (_sensor_shape c)); [ discriminate | reflexivity ].
Qed.

End RoiProperties.

(** C3 at the failing input.  A sensor 1001 columns wide whose width
    increment is 4: the start-up mirrors the whole sensor and then sets
    it.  The handle rejects the width write of the first sequence as an
    invalid argument; the retry finds every component equal to the
    mirrored one, asks no increment and writes nothing; [_set_roi]
    returns [True] and the mirrored width is 1001, which is no multiple
    of the increment 4 the handle reports, and which the handle never
    accepted: the one width write made was rejected. *)
Theorem set_roi_retry_mirrors_rejected_width :
  let c := mkCamera (mkScripted off_grid_sensor 0) [] false [] false None
             (1001, 1000) (mkROI 0 0 1001 1000) (mkBinning 1 1) software_once in
  let roi := mkROI 0 0 1001 1000 in
  fst (write_roi roi c) = Raise (Xi_error (Some _XI_INVALID_ARGUMENTS))
  /\ fst (_set_roi 10 roi c) = Ret true
  /\ _roi (snd (_set_roi 10 roi c)) = mkROI 0 0 1001 1000
  /\ map exchange (calls (snd (_set_roi 10 roi c)))
     = [(set_offsetX 0, Ok 0); (set_offsetY 0, Ok 0);
        (set_width 1001, Err (Xi_error (Some _XI_INVALID_ARGUMENTS)))]
  /\ fst (xi (_handle (snd (_set_roi 10 roi c))) get_width_increment) = Ok 4
  /\ width (_roi (snd (_set_roi 10 roi c))) mod 4 = 1
  /\ fst (XimeaCamera__init__ 10 None (mkScripted off_grid_sensor 0)) = Ret tt
  /\ _roi (snd (XimeaCamera__init__ 10 None (mkScripted off_grid_sensor 0)))
     = mkROI 0 0 1001 1000.
Proof.
  cbv zeta.
  split; [ vm_compute; reflexivity | ].
  split; [ vm_compute; reflexivity | ].
  split; [ vm_compute; reflexivity | ].
  split; [ vm_compute; reflexivity | ].
  split; [ vm_compute; reflexivity | ].
  split; [ vm_compute; reflexivity | ].
  split; vm_compute; reflexivity.
Qed.

(** ** Failures of [_set_roi] *)

Section RoiFailure.
Context {dev : Type} {handle : Handle dev}.

Lemma set_roi_exceeding (depth : nat) (roi : ROI) (c : camera dev) :
  exceeds roi (_sensor_shape c) = true ->
  _set_roi (S depth) roi c = (Raise (ValueError roi (_sensor_shape c)), c).
Proof.
  intros Hout. cbn [_set_roi]. unfold bind, gets. rewrite Hout. reflexivity.
Qed.

Lemma set_roi_after_write (depth : nat) (roi : ROI) (c c1 : camera dev) (u : unit) :
  exceeds roi (_sensor_shape c) = false ->
  write_roi roi c = (Ret u, c1) ->
  _set_roi (S depth) roi c = (Ret true, with_roi roi c1).
Proof.
  intros Hfits Hwrite. cbn [_set_roi].
  unfold bind at 1. unfold gets at 1. rewrite Hfits.
  unfold bind at 1. unfold try_except. unfold bind at 1. rewrite Hwrite.
  reflexivity.
Qed.

Lemma set_roi_after_statusless_error (depth : nat) (roi : ROI) (c c1 : camera dev) :
  exceeds roi (_sensor_shape c) = false ->
  write_roi roi c = (Raise (Xi_error None), c1) ->
  _set_roi (S depth) roi c = (Raise AttributeError, c1).
Proof.
  intros Hfits Hwrite. cbn [_set_roi].
  unfold bind at 1. unfold gets at 1. rewrite Hfits.
  unfold bind at 1. unfold try_except. unfold bind at 1. rewrite Hwrite.
  reflexivity.
Qed.

(** The last handler: the previous ROI is set again and the exception
    re-raised, unless setting it again raises. *)
Lemma set_roi_after_other_exception (depth : nat) (roi : ROI) (c c1 : camera dev)
    (err : exn) :
  exceeds roi (_sensor_shape c) = false ->
  write_roi roi c = (Raise err, c1) ->
  is_Xi_error err = false ->
  _set_roi (S depth) roi c =
    match _set_roi depth (_roi c1) c1 with
    | (Ret _, c2) => (Raise err, c2)
    | (Raise e, c2) => (Raise e, c2)
    end.
Proof.
  intros Hfits Hwrite Hother. cbn [_set_roi].
  unfold bind at 1. unfold gets at 1. rewrite Hfits.
  unfold bind at 1. unfold try_except. unfold bind at 1. rewrite Hwrite.
  destruct err; try discriminate Hother;
    unfold bind, gets, raise;
    destruct (_set_roi depth (_roi c1) c1) as [[b | e] c2]; reflexivity.
Qed.

Lemma ROI_components (a b : ROI) :
  height a = height b -> width a = width b -> left a = left b -> top a = top b ->
  a = b.
Proof. destruct a, b; cbn; congruence. Qed.

(** Setting the mirrored ROI again leaves it mirrored. *)
Lemma set_roi_again_keeps_mirror (depth : nat) (c c' : camera dev) (b : bool) :
  _set_roi depth (_roi c) c = (Ret b, c') -> _roi c' = _roi c.
Proof.
  intros Hrun. pose proof (set_roi_ret_fits _ _ _ _ _ Hrun) as Hfits.
  destruct depth as [ | depth]; [ discriminate | ].
  pose proof (roi_kept_by_write (_roi c) c) as Hkept.
  destruct (write_roi (_roi c) c) as [[u | err] c1] eqn:Hwrite; cbn in Hkept.
  - rewrite (set_roi_after_write depth _ c c1 u Hfits Hwrite) in Hrun.
    injection Hrun as _ <-. reflexivity.
  - destruct (is_Xi_error err) eqn:Hkind.
    + destruct err as [[s | ] | | | | | | | | | | | | ]; try discriminate Hkind.
      * rewrite (set_roi_after_Xi_error depth _ c c1 s Hfits Hwrite) in Hrun.
        destruct (s =? _XI_INVALID_ARGUMENTS).
        -- destruct (retry_roi (_roi c) c1) as [[r | e] c2] eqn:Hretry; [ | discriminate ].
           injection Hrun as _ <-. cbn.
           apply retry_roi_kept in Hretry.
           destruct Hretry as (Hh & Hw & Hl & Ht).
           rewrite Hkept in Hh, Hw, Hl, Ht.
           apply ROI_components; auto.
        -- injection Hrun as _ <-. reflexivity.
      * rewrite (set_roi_after_statusless_error depth _ c c1 Hfits Hwrite) in Hrun.
        discriminate.
    + rewrite (set_roi_after_other_exception depth _ c c1 err Hfits Hwrite Hkind) in Hrun.
      destruct (_set_roi depth (_roi c1) c1) as [[b' | e] c2]; discriminate.
Qed.

(** Whenever [_set_roi] raises, the mirrored ROI is the one held before
    the call. *)
Lemma set_roi_raise_keeps_mirror (depth : nat) (roi : ROI) (c c' : camera dev) (e : exn) :
  _set_roi depth roi c = (Raise e, c') -> _roi c' = _roi c.
Proof.
  revert roi c c' e. induction depth as [ | depth IH]; intros roi c c' e Hrun.
  - cbn in Hrun. injection Hrun as _ <-. reflexivity.
  - destruct (exceeds roi (_sensor_shape c)) eqn:Hfits.
    + rewrite (set_roi_exceeding depth roi c Hfits) in Hrun.
      injection Hrun as _ <-. reflexivity.
    + pose proof (roi_kept_by_write roi c) as Hkept.
      destruct (write_roi roi c) as [[u | err] c1] eqn:Hwrite; cbn in Hkept.
      * rewrite (set_roi_after_write depth _ c c1 u Hfits Hwrite) in Hrun. discriminate.
      * destruct (is_Xi_error err) eqn:Hkind.
        -- destruct err as [[s | ] | | | | | | | | | | | | ]; try discriminate Hkind.
           ++ rewrite (set_roi_after_Xi_error depth _ c c1 s Hfits Hwrite) in Hrun.
              destruct (s =? _XI_INVALID_ARGUMENTS); [ | discriminate ].
              pose proof (roi_kept_by_retry roi c1) as Hkept2.
              destruct (retry_roi roi c1) as [[r | e2] c2]; [ discriminate | ].
              injection Hrun as _ <-. cbn in Hkept2. congruence.
           ++ rewrite (set_roi_after_statusless_error depth _ c c1 Hfits Hwrite) in Hrun.
              injection Hrun as _ <-. exact Hkept.
        -- rewrite (set_roi_after_other_exception depth _ c c1 err Hfits Hwrite Hkind)
             in Hrun.
           destruct (_set_roi depth (_roi c1) c1) as [[b | e2] c2] eqn:Hagain.
           ++ injection Hrun as _ <-.
              rewrite (set_roi_again_keeps_mirror depth c1 c2 b Hagain). exact Hkept.
           ++ injection Hrun as _ <-.
              rewrite (IH _ _ _ _ Hagain). exact Hkept.
Qed.

(** An [Xi_error] of the first write sequence whose status is not the
    invalid-arguments one is caught by the first handler, which does
    nothing with it: the call returns [True] and mirrors the request. *)
Lemma set_roi_swallows_other_status (depth : nat) (roi : ROI) (c c1 : camera dev)
    (s : Z) :
  exceeds roi (_sensor_shape c) = false ->
  write_roi roi c = (Raise (Xi_error (Some s)), c1) ->
  s <> _XI_INVALID_ARGUMENTS ->
  _set_roi (S depth) roi c = (Ret true, with_roi roi c1).
Proof.
  intros Hfits Hwrite Hs.
  rewrite (set_roi_after_Xi_error depth roi c c1 s Hfits Hwrite).
  destruct (Z.eqb_spec s _XI_INVALID_ARGUMENTS); [ contradiction | reflexivity ].
Qed.

End RoiFailure.

(** C1 at the failing input.  A disabled camera mirrors the full frame
    of a 2048 x 2048 sensor; ROI(0, 0, 1000, 1000) is requested; the
    handle rejects the width write with status 12 (not supported).  The
    first write sequence raises that error, yet [_set_roi] returns [True]
    and the mirrored ROI is the requested one, which the hardware does
    not hold: the later writes of the sequence were never made and
    nothing was restored. *)
Theorem set_roi_swallows_unrecovered_hardware_error :
  let c := bench (refusing is_set_width (Xi_error (Some _XI_NOT_SUPPORTED)))
             false false full_frame software_once in
  let roi := mkROI 0 0 1000 1000 in
  fst (write_roi roi c) = Raise (Xi_error (Some _XI_NOT_SUPPORTED))
  /\ _set_roi 1000 roi c = (Ret true, with_roi roi (snd (write_roi roi c)))
  /\ _roi c = full_frame
  /\ _roi (snd (_set_roi 1000 roi c)) = roi
  /\ map request (calls (snd (_set_roi 1000 roi c)))
     = [set_offsetX 0; set_offsetY 0; set_width 1000].
Proof.
  cbv zeta.
  split; [ vm_compute; reflexivity | split; [ | repeat split; vm_compute; reflexivity ] ].
  apply (set_roi_swallows_other_status 999 (mkROI 0 0 1000 1000)
           (bench (refusing is_set_width (Xi_error (Some _XI_NOT_SUPPORTED)))
              false false full_frame software_once)
           _ _XI_NOT_SUPPORTED).
  - vm_compute. reflexivity.
  - vm_compute. reflexivity.
  - discriminate.
Qed.

(** ** Footprints of the methods *)

Section Confinement.
Context {dev : Type} {handle : Handle dev}.
Variable P : camera dev -> Prop.
Variable allowed : call -> bool.

Lemma confined_ret {A : Type} (a : A) : confined P allowed (ret a).
Proof. intros c Hc. split; [ exact Hc | ]. exists []. cbn. rewrite app_nil_r. auto. Qed.

Lemma confined_raise {A : Type} (e : exn) : confined P allowed (raise (A := A) e).
Proof. intros c Hc. split; [ exact Hc | ]. exists []. cbn. rewrite app_nil_r. auto. Qed.

Lemma confined_gets {A : Type} (f : camera dev -> A) : confined P allowed (gets f).
Proof. intros c Hc. split; [ exact Hc | ]. exists []. cbn. rewrite app_nil_r. auto. Qed.

Lemma confined_evaluate {A : Type} (o : outcome A) : confined P allowed (evaluate o).
Proof. intros c Hc. split; [ exact Hc | ]. exists []. cbn. rewrite app_nil_r. auto. Qed.

Lemma confined_modify (g : camera dev -> camera dev) :
  (forall c, P c -> P (g c)) -> (forall c, calls (g c) = calls c) ->
  confined P allowed (modify g).
Proof.
  intros Hg Hcalls c Hc. split; [ apply Hg, Hc | ].
  exists []. cbn. rewrite app_nil_r, Hcalls. auto.
Qed.

Lemma confined_bind {A B : Type} (m : M (camera dev) A) (k : A -> M (camera dev) B) :
  confined P allowed m -> (forall a, confined P allowed (k a)) ->
  confined P allowed (bind m k).
Proof.
  intros Hm Hk c Hc. unfold bind.
  destruct (Hm c Hc) as (HP1 & new1 & Hcalls1 & Hok1).
  destruct (m c) as [[a | e] c1]; cbn in *.
  - destruct (Hk a c1 HP1) as (HP2 & new2 & Hcalls2 & Hok2).
    split; [ exact HP2 | ]. exists (new1 ++ new2). split.
    + rewrite Hcalls2, Hcalls1, app_assoc. reflexivity.
    + rewrite forallb_app, Hok1, Hok2. reflexivity.
  - split; [ exact HP1 | ]. exists new1. auto.
Qed.

Lemma confined_try_except {A : Type} (body : M (camera dev) A)
    (handler : exn -> M (camera dev) A) :
  confined P allowed body -> (forall e, confined P allowed (handler e)) ->
  confined P allowed (try_except body handler).
Proof.
  intros Hb Hh c Hc. unfold try_except.
  destruct (Hb c Hc) as (HP1 & new1 & Hcalls1 & Hok1).
  destruct (body c) as [[a | e] c1]; cbn in *.
  - split; [ exact HP1 | ]. exists new1. auto.
  - destruct (Hh e c1 HP1) as (HP2 & new2 & Hcalls2 & Hok2).
    split; [ exact HP2 | ]. exists (new1 ++ new2). split.
    + rewrite Hcalls2, Hcalls1, app_assoc. reflexivity.
    + rewrite forallb_app, Hok1, Hok2. reflexivity.
Qed.

Lemma confined_try_finally {A B : Type} (body : M (camera dev) A)
    (final : M (camera dev) B) :
  confined P allowed body -> confined P allowed final ->
  confined P allowed (try_finally body final).
Proof.
  intros Hb Hf c Hc. unfold try_finally.
  destruct (Hb c Hc) as (HP1 & new1 & Hcalls1 & Hok1).
  destruct (body c) as [r c1]; cbn in *.
  destruct (Hf c1 HP1) as (HP2 & new2 & Hcalls2 & Hok2).
  assert (Hnew : calls (snd (final c1)) = calls c ++ new1 ++ new2).
  { rewrite Hcalls2, Hcalls1, app_assoc. reflexivity. }
  assert (Hok : forallb (fun ev => allowed (request ev)) (new1 ++ new2) = true).
  { rewrite forallb_app, Hok1, Hok2. reflexivity. }
  destruct (final c1) as [[b | e] c2]; cbn in *;
    (split; [ exact HP2 | exists (new1 ++ new2); auto ]).
Qed.

Hypothesis P_handle : forall d ev c, P c -> P (with_handle d ev c).
Hypothesis P_acquiring : forall b c, P c -> P (with_acquiring b c).

Lemma confined_sdk (q : call) : allowed q = true -> confined P allowed (sdk q).
Proof.
  intros Hq c Hc. unfold sdk. destruct (xi (_handle c) q) as [r d]. cbn.
  split; [ apply P_handle, Hc | ].
  eexists. split; [ reflexivity | ]. cbn. rewrite Hq. reflexivity.
Qed.

Lemma confined_blocking (during : bool -> bool) (q : call) :
  allowed q = true -> confined P allowed (blocking during q).
Proof.
  intros Hq c Hc. unfold blocking.
  destruct (confined_sdk q Hq c Hc) as (HP1 & new & Hcalls & Hok).
  destruct (sdk q c) as [r c1]. cbn in *.
  split; [ apply P_acquiring, HP1 | ]. exists new. auto.
Qed.

(** A proof by the shape of the method; the calls are admitted through a
    hypothesis that [allowed] contains the footprint of the method. *)
Ltac admitted_call :=
  first
    [ assumption
    | match goal with
      | H : forall q, _ = true -> allowed q = true |- allowed _ = true =>
          apply H; reflexivity
      end ].

Ltac confine :=
  repeat first
    [ simple apply confined_ret | simple apply confined_raise
    | simple apply confined_gets | simple apply confined_evaluate
    | simple apply confined_sdk; admitted_call
    | simple apply confined_blocking; admitted_call
    | simple apply confined_modify; [ solve [ auto ] | intro; reflexivity ]
    | simple apply confined_bind; [ | intro ]
    | simple apply confined_try_except; [ | intro ]
    | simple apply confined_try_finally
    | match goal with
      | |- confined _ _ (if ?b then _ else _) => destruct b
      | |- confined _ _ (match ?x with _ => _ end) => destruct x
      end
    | assumption ].

Lemma confined_abort :
  (forall q, stop_call q = true -> allowed q = true) -> confined P allowed abort.
Proof. intros Hfoot. unfold abort. confine. Qed.

Lemma confined_do_enable :
  (forall q, acquisition_call q = true -> allowed q = true) ->
  confined P allowed _do_enable.
Proof.
  intros Hfoot. unfold _do_enable. confine.
  apply confined_abort. intros q Hq. apply Hfoot. destruct q; try discriminate; reflexivity.
Qed.

Lemma confined_fetch_data (during : bool -> bool) :
  (forall q, fetch_call q = true -> allowed q = true) ->
  confined P allowed (_fetch_data during).
Proof. intros Hfoot. unfold _fetch_data. confine. Qed.

Lemma confined_set_exposure_time {float : Type} (us : float -> outcome Z)
    (value : float) :
  (forall q, exposure_call q = true -> allowed q = true) ->
  confined P allowed (set_exposure_time us value).
Proof. intros Hfoot. unfold set_exposure_time. confine. Qed.

Lemma confined_TRIGGER_TABLE_getitem (key : TriggerType * TriggerMode) :
  confined P allowed (TRIGGER_TABLE_getitem key).
Proof. unfold TRIGGER_TABLE_getitem. confine. Qed.

Lemma confined_do_trigger :
  (forall q, pulse_call q = true -> allowed q = true) -> confined P allowed _do_trigger.
Proof.
  intros Hfoot. unfold _do_trigger. confine. apply confined_TRIGGER_TABLE_getitem.
Qed.

Lemma confined_get_roi :
  (forall q, geometry_read q = true -> allowed q = true) -> confined P allowed _get_roi.
Proof. intros Hfoot. unfold _get_roi. confine. Qed.

Lemma confined_set_binning (binning : Binning) : confined P allowed (_set_binning binning).
Proof. unfold _set_binning. confine. Qed.

Lemma confined_do_shutdown (CAM_OPEN : dev -> bool) :
  (forall q, shutdown_call q = true -> allowed q = true) ->
  confined P allowed (_do_shutdown CAM_OPEN).
Proof. intros Hfoot. unfold _do_shutdown. confine. Qed.

Lemma confined_quantize (x incr : Z) : confined P allowed (quantize x incr).
Proof. apply confined_evaluate. Qed.

Lemma confined_push_roi (roi : ROI) :
  (forall q, roi_call q = true -> allowed q = true) -> confined P allowed (push_roi roi).
Proof. intros Hfoot. unfold push_roi. confine. Qed.

Lemma confined_correct_axis_height (x : Z) :
  (forall q, roi_call q = true -> allowed q = true) ->
  confined P allowed (correct_axis x height get_height_increment set_height).
Proof. intros Hfoot. unfold correct_axis. confine. apply confined_quantize. Qed.

Lemma confined_correct_axis_width (x : Z) :
  (forall q, roi_call q = true -> allowed q = true) ->
  confined P allowed (correct_axis x width get_width_increment set_width).
Proof. intros Hfoot. unfold correct_axis. confine. apply confined_quantize. Qed.

Lemma confined_correct_axis_left (x : Z) :
  (forall q, roi_call q = true -> allowed q = true) ->
  confined P allowed (correct_axis x left get_offsetX_increment set_offsetX).
Proof. intros Hfoot. unfold correct_axis. confine. apply confined_quantize. Qed.

Lemma confined_correct_axis_top (x : Z) :
  (forall q, roi_call q = true -> allowed q = true) ->
  confined P allowed (correct_axis x top get_offsetY_increment set_offsetY).
Proof. intros Hfoot. unfold correct_axis. confine. apply confined_quantize. Qed.

Lemma confined_correct_roi (roi : ROI) :
  (forall q, roi_call q = true -> allowed q = true) ->
  confined P allowed (correct_roi roi).
Proof.
  intros Hfoot. unfold correct_roi. cbv zeta. confine;
    first [ apply confined_correct_axis_height | apply confined_correct_axis_width
          | apply confined_correct_axis_left | apply confined_correct_axis_top ];
    exact Hfoot.
Qed.

Hypothesis P_enabled : forall b c, P c -> P (with_enabled b c).

Lemma confined_disable :
  (forall q, stop_call q = true -> allowed q = true) -> confined P allowed disable.
Proof.
  intros Hfoot. unfold disable, _do_disable. confine. apply confined_abort, Hfoot.
Qed.

Lemma confined_enable :
  (forall q, acquisition_call q = true -> allowed q = true) -> confined P allowed enable.
Proof.
  intros Hfoot. unfold enable. confine. apply confined_do_enable, Hfoot.
Qed.

Lemma confined_disabled_camera {A : Type} (body : M (camera dev) A) :
  (forall q, acquisition_call q = true -> allowed q = true) ->
  confined P allowed body -> confined P allowed (_disabled_camera body).
Proof.
  intros Hfoot Hbody. unfold _disabled_camera. confine.
  - apply confined_disable. intros q Hq. apply Hfoot.
    destruct q; try discriminate; reflexivity.
  - apply confined_enable, Hfoot.
Qed.

Lemma confined_enabled_camera {A : Type} (body : M (camera dev) A) :
  (forall q, acquisition_call q = true -> allowed q = true) ->
  confined P allowed body -> confined P allowed (_enabled_camera body).
Proof.
  intros Hfoot Hbody. unfold _enabled_camera. confine.
  - apply confined_enable, Hfoot.
  - apply confined_disable. intros q Hq. apply Hfoot.
    destruct q; try discriminate; reflexivity.
Qed.

Lemma roi_call_acquisition (q : call) : acquisition_call q = true -> roi_call q = true.
Proof. intros Hq. unfold roi_call. rewrite Hq. reflexivity. Qed.

Hypothesis P_roi : forall r c, P c -> P (with_roi r c).

Lemma confined_set_roi (depth : nat) (roi : ROI) :
  (forall q, roi_call q = true -> allowed q = true) ->
  confined P allowed (_set_roi depth roi).
Proof.
  intros Hfoot.
  assert (Hacq : forall q, acquisition_call q = true -> allowed q = true).
  { intros q Hq. apply Hfoot, roi_call_acquisition, Hq. }
  revert roi. induction depth as [ | depth IH]; intros roi; cbn [_set_roi].
  - apply confined_raise.
  - confine;
      first [ apply confined_disabled_camera;
              [ exact Hacq
              | first [ apply confined_push_roi | apply confined_correct_roi ]; exact Hfoot ]
            | apply IH ].
Qed.

Hypothesis P_trigger_map : forall m c, P c -> P (with_trigger_map m c).

Lemma confined_set_trigger (ttype : TriggerType) (tmode : TriggerMode) :
  (forall q, trigger_config_call q = true -> allowed q = true) ->
  confined P allowed (set_trigger ttype tmode).
Proof.
  intros Hfoot. unfold set_trigger. confine.
  - apply confined_TRIGGER_TABLE_getitem.
  - apply confined_disabled_camera.
    + intros q Hq. apply Hfoot. unfold trigger_config_call. rewrite Hq. reflexivity.
    + assert (Hpush : forall q, trigger_push q = true -> allowed q = true).
      { intros q Hq. apply Hfoot. unfold trigger_config_call. rewrite Hq.
        apply orb_true_r. }
      confine.
Qed.

End Confinement.

Section Startup.
Context {dev : Type} {handle : Handle dev}.
Variable P : camera dev -> Prop.
Variable allowed : call -> bool.

Hypothesis P_handle : forall d ev c, P c -> P (with_handle d ev c).
Hypothesis P_acquiring : forall b c, P c -> P (with_acquiring b c).
Hypothesis P_enabled : forall b c, P c -> P (with_enabled b c).
Hypothesis P_roi : forall r c, P c -> P (with_roi r c).
Hypothesis P_sensor_shape : forall s c, P c -> P (with_sensor_shape s c).
Hypothesis P_setting : forall n c, P c -> P (with_setting n c).
Hypothesis startup_allowed : forall q, startup_call q = true -> allowed q = true.

Lemma confined_probe_temperature (name : string) :
  confined P allowed (probe_temperature name).
Proof.
  unfold probe_temperature.
  repeat first
    [ simple apply confined_ret | simple apply confined_raise
    | simple apply confined_sdk; [ assumption | apply startup_allowed; reflexivity ]
    | simple apply confined_modify; [ solve [ auto ] | intro; reflexivity ]
    | simple apply confined_bind; [ | intro ]
    | simple apply confined_try_except; [ | intro ]
    | match goal with
      | |- confined _ _ (if ?b then _ else _) => destruct b
      | |- confined _ _ (match ?x with _ => _ end) => destruct x
      end ].
Qed.

(** [initialize] stays within the start-up calls wherever its
    [set_trigger(SOFTWARE, ONCE)] does. *)
Lemma confined_initialize (depth : nat) :
  confined P allowed (set_trigger SOFTWARE ONCE) ->
  confined P allowed (initialize depth).
Proof.
  intros Htrigger. unfold initialize, set_roi.
  repeat first
    [ simple apply confined_ret | simple apply confined_raise
    | simple apply confined_gets
    | simple apply confined_sdk; [ assumption | apply startup_allowed; reflexivity ]
    | simple apply confined_modify; [ solve [ auto ] | intro; reflexivity ]
    | simple apply confined_probe_temperature
    | simple apply confined_set_roi;
      [ assumption | assumption | assumption | assumption
      | intros q Hq; apply startup_allowed; unfold startup_call; rewrite Hq; reflexivity ]
    | simple apply confined_bind; [ | intro ]
    | match goal with
      | |- confined _ _ (if ?b then _ else _) => destruct b
      | |- confined _ _ (match ?x with _ => _ end) => destruct x
      end
    | assumption ].
Qed.

End Startup.

Section Footprints.
Context {dev : Type} {handle : Handle dev}.

Lemma confined_preserves {A : Type} (P : camera dev -> Prop) (allowed : call -> bool)
    (m : M (camera dev) A) :
  confined P allowed m -> preserves P m.
Proof. intros Hm c Hc. apply (Hm c Hc). Qed.

Lemma confined_calls {A : Type} (allowed : call -> bool) (m : M (camera dev) A)
    (c : camera dev) :
  confined anything allowed m ->
  exists new, calls (snd (m c)) = calls c ++ new /\
              forall ev, In ev new -> allowed (request ev) = true.
Proof.
  intros Hm. destruct (Hm c I) as (_ & new & Hcalls & Hok).
  exists new. split; [ exact Hcalls | ].
  intros ev Hin. rewrite forallb_forall in Hok. apply Hok, Hin.
Qed.

(** X11.  What each method may ask of the hardware, on any device and
    from any state, returning or raising: [abort] only stops; the start
    path only stops and starts; a fetch only reads a frame; the exposure
    setter only writes the exposure; the trigger hook only pulses;
    [set_trigger] only stops, starts and pushes the trigger source and
    selector; [_set_roi] only stops, starts, writes sizes and offsets and
    reads increments; [_get_roi] only reads the geometry; [_set_binning]
    asks nothing; the shutdown only stops and closes. *)
Theorem methods_stay_within_their_footprints :
  confined (dev := dev) anything stop_call abort /\
  confined (dev := dev) anything acquisition_call _do_enable /\
  (forall during, confined (dev := dev) anything fetch_call (_fetch_data during)) /\
  (forall (float : Type) (us : float -> outcome Z) (value : float),
     confined (dev := dev) anything exposure_call (set_exposure_time us value)) /\
  confined (dev := dev) anything pulse_call _do_trigger /\
  (forall ttype tmode,
     confined (dev := dev) anything trigger_config_call (set_trigger ttype tmode)) /\
  (forall depth roi, confined (dev := dev) anything roi_call (_set_roi depth roi)) /\
  confined (dev := dev) anything geometry_read _get_roi /\
  (forall binning,
     confined (dev := dev) anything (fun _ => false) (_set_binning binning)) /\
  (forall CAM_OPEN,
     confined (dev := dev) anything shutdown_call (_do_shutdown CAM_OPEN)).
Proof.
  assert (Hany1 : forall (d : dev) (ev : event) (c : camera dev),
            anything c -> anything (with_handle d ev c)) by (intros; exact I).
  assert (Hany2 : forall (b : bool) (c : camera dev),
            anything c -> anything (with_acquiring b c)) by (intros; exact I).
  assert (Hany3 : forall (b : bool) (c : camera dev),
            anything c -> anything (with_enabled b c)) by (intros; exact I).
  assert (Hany4 : forall (r : ROI) (c : camera dev),
            anything c -> anything (with_roi r c)) by (intros; exact I).
  assert (Hany5 : forall (m : string * string) (c : camera dev),
            anything c -> anything (with_trigger_map m c)) by (intros; exact I).
  split; [ apply confined_abort; auto | ].
  split; [ apply confined_do_enable; auto | ].
  split; [ intros; apply confined_fetch_data; auto | ].
  split; [ intros; apply confined_set_exposure_time; auto | ].
  split; [ apply confined_do_trigger; auto | ].
  split; [ intros; apply confined_set_trigger; auto | ].
  split; [ intros; apply confined_set_roi; auto | ].
  split; [ apply confined_get_roi; auto | ].
  split; [ intros; apply confined_set_binning | ].
  intros; apply confined_do_shutdown; auto.
Qed.

Lemma startup_call_no_push (q : call) : startup_call q = true -> trigger_push q = false.
Proof. destruct q; cbn; intros H; try reflexivity; discriminate. Qed.

Lemma set_trigger_cached (ttype : TriggerType) (tmode : TriggerMode) (c : camera dev) :
  dict_get trigger_key_eqb (ttype, tmode) TRIGGER_TABLE = Some (_trigger_map c) ->
  set_trigger ttype tmode c = (Ret tt, c).
Proof.
  intros Hget. unfold set_trigger, TRIGGER_TABLE_getitem. rewrite Hget.
  unfold bind, try_except, ret, gets.
  assert (Heq : native_pair_eqb (_trigger_map c) (_trigger_map c) = true)
    by (apply native_pair_eqb_eq; reflexivity).
  rewrite Heq. reflexivity.
Qed.

(** X12.  The constructor never pushes a trigger source or selector to
    the hardware: it caches the software/once pair before [initialize]
    runs, so the [set_trigger(SOFTWARE, ONCE)] of [initialize] finds the
    pair unchanged.  Whatever the device answers and whether the
    constructor returns or raises, every call it made is a start-up call
    (device count and opening, maxima, ROI negotiation, temperature
    probes) and the cached pair is the software/once one. *)
Theorem constructor_pushes_no_trigger (depth : nat) (serial_number : option string)
    (d : dev) :
  _trigger_map (snd (XimeaCamera__init__ depth serial_number d)) = software_once /\
  forall ev, In ev (calls (snd (XimeaCamera__init__ depth serial_number d))) ->
             startup_call (request ev) = true /\ trigger_push (request ev) = false.
Proof.
  unfold XimeaCamera__init__. rewrite TRIGGER_TABLE_software_once.
  set (c0 := XimeaCamera_attributes serial_number d software_once).
  assert (Hinit : confined (fun c => _trigger_map c = software_once) startup_call
                    (initialize depth)).
  { apply confined_initialize; auto.
    intros c Hc. rewrite set_trigger_cached.
    - split; [ exact Hc | ]. exists []. cbn. rewrite app_nil_r. auto.
    - rewrite Hc. apply TRIGGER_TABLE_software_once. }
  destruct (Hinit c0 eq_refl) as (Hmap & new & Hcalls & Hok).
  split; [ exact Hmap | ].
  intros ev Hin. rewrite Hcalls in Hin. cbn in Hin.
  rewrite forallb_forall in Hok. specialize (Hok ev Hin).
  split; [ exact Hok | apply startup_call_no_push, Hok ].
Qed.

(** A property kept by every attribute write and true of a new object
    holds in every reachable state. *)
Lemma reachable_invariant (P : camera dev -> Prop) :
  (forall d ev c, P c -> P (with_handle d ev c)) ->
  (forall b c, P c -> P (with_acquiring b c)) ->
  (forall b c, P c -> P (with_enabled b c)) ->
  (forall r c, P c -> P (with_roi r c)) ->
  (forall s c, P c -> P (with_sensor_shape s c)) ->
  (forall n c, P c -> P (with_setting n c)) ->
  (forall m c, P c -> P (with_trigger_map m c)) ->
  (forall sn d once, P (XimeaCamera_attributes sn d once)) ->
  forall c, reachable c -> P c.
Proof.
  intros H1 H2 H3 H4 H5 H6 H7 Hnew c Hreach.
  induction Hreach as [sn d once Honce | m c Hreach IH].
  - apply Hnew.
  - assert (Htrig : forall t mo, confined P (fun _ => true) (set_trigger t mo)).
    { intros t mo. apply confined_set_trigger; auto. }
    destruct m; cbn [after].
    + apply (confined_preserves P (fun _ => true)); [ | exact IH ].
      apply confined_initialize; auto.
    + apply preserves_enable; auto.
    + apply preserves_disable; auto.
    + apply preserves_abort; auto.
    + apply preserves_trigger; auto.
    + apply preserves_trigger; auto.
    + apply (confined_preserves P (fun _ => true)); [ apply Htrig | exact IH ].
    + apply preserves_set_roi; auto.
    + apply preserves_get_roi; auto.
    + apply preserves_set_binning; auto.
    + apply preserves_set_exposure_time; auto.
    + apply preserves_fetch_data; auto.
Qed.

(** X7.  The binning of a reachable camera is always (1, 1), and
    [_set_binning] never touches the camera: it returns [True] for the
    binning (1, 1) and raises [NotImplementedError] for any other. *)
Theorem binning_is_always_identity (c : camera dev) (binning : Binning) :
  reachable c ->
  _binning c = mkBinning 1 1 /\
  _set_binning binning c =
    (if Binning_eqb binning (mkBinning 1 1) then Ret true else Raise NotImplementedError,
     c).
Proof.
  intros Hreach.
  assert (Hone : _binning c = mkBinning 1 1).
  { apply (reachable_invariant (fun s => _binning s = mkBinning 1 1)); auto. }
  split; [ exact Hone | ].
  unfold _set_binning, bind, gets. rewrite Hone.
  destruct (Binning_eqb binning (mkBinning 1 1)); reflexivity.
Qed.

End Footprints.

Lemma binning_is_always_identity_witness :
  _set_binning (mkBinning 2 2)
    (after call_enable (XimeaCamera_attributes None (mkScripted obliging 0) software_once))
  = (Raise NotImplementedError,
     after call_enable (XimeaCamera_attributes None (mkScripted obliging 0) software_once)).
Proof.
  apply (proj2 (binning_is_always_identity
                  (after call_enable
                     (XimeaCamera_attributes None (mkScripted obliging 0) software_once))
                  (mkBinning 2 2)
                  (reachable_after _ _ (reachable_new None (mkScripted obliging 0)
                                          software_once eq_refl)))).
Defined.

(** ** More on the region of interest *)

Section RoiMore.
Context {dev : Type} {handle : Handle dev}.

Lemma exceeds_false (roi : ROI) (shape : Z * Z) :
  exceeds roi shape = false <->
  width roi + left roi <= fst shape /\ height roi + top roi <= snd shape.
Proof.
  unfold exceeds. rewrite orb_false_iff.
  rewrite (Z.gtb_ltb (width roi + left roi)), (Z.gtb_ltb (height roi + top roi)).
  rewrite (Z.ltb_ge (fst shape)), (Z.ltb_ge (snd shape)). reflexivity.
Qed.

(** X1.  Whenever [_set_roi] raises, whatever the exception and wherever
    it came from (the bounds check, the retry, the re-application of the
    previous ROI, an exhausted stack), the mirrored ROI is the one held
    before the call; the sensor shape, the binning and the cached
    trigger pair are untouched too. *)
Theorem set_roi_failure_keeps_mirror (depth : nat) (roi : ROI) (c c' : camera dev)
    (e : exn) :
  _set_roi depth roi c = (Raise e, c') ->
  _roi c' = _roi c /\
  _sensor_shape c' = _sensor_shape c /\
  _binning c' = _binning c /\
  _trigger_map c' = _trigger_map c.
Proof.
  intros Hrun. split; [ exact (set_roi_raise_keeps_mirror depth roi c c' e Hrun) | ].
  change c' with (snd (Raise (A := bool) e, c')). rewrite <- Hrun.
  repeat split.
  - apply (preserves_set_roi (fun s => _sensor_shape s = _sensor_shape c)); auto.
  - apply (preserves_set_roi (fun s => _binning s = _binning c)); auto.
  - apply (preserves_set_roi (fun s => _trigger_map s = _trigger_map c)); auto.
Qed.

(** X2.  A request that does not fit the sensor ([width + left] beyond
    the sensor width or [height + top] beyond its height) raises
    [ValueError] carrying the request and the sensor shape before
    anything is asked of the hardware: the camera is exactly as before.
    Conversely a call that returns had a request that fits. *)
Theorem set_roi_bounds (depth : nat) (roi : ROI) (c : camera dev) :
  (exceeds roi (_sensor_shape c) = true ->
     _set_roi (S depth) roi c = (Raise (ValueError roi (_sensor_shape c)), c))
  /\
  (forall b c', _set_roi depth roi c = (Ret b, c') ->
     width roi + left roi <= fst (_sensor_shape c) /\
     height roi + top roi <= snd (_sensor_shape c)).
Proof.
  split.
  - apply set_roi_exceeding.
  - intros b c' Hrun. apply exceeds_false. exact (set_roi_ret_fits _ _ _ _ _ Hrun).
Qed.

Lemma bind_sdk_ret {A : Type} (q : call) (k : Z -> M (camera dev) A)
    (c c' : camera dev) (a : A) :
  bind (sdk q) k c = (Ret a, c') ->
  exists x d,
    xi (_handle c) q = (Ok x, d) /\
    k x (with_handle d (mkEvent q (Ok x) (_acquiring c)) c) = (Ret a, c').
Proof.
  unfold bind, sdk. destruct (xi (_handle c) q) as [[x | e] d]; [ | discriminate ].
  intros H. exists x, d. auto.
Qed.

Lemma push_roi_ret (roi : ROI) (c c' : camera dev) (u : unit) :
  push_roi roi c = (Ret u, c') ->
  map request (calls c') =
    map request (calls c) ++
      [set_offsetX 0; set_offsetY 0; set_width (width roi); set_height (height roi);
       set_offsetX (left roi); set_offsetY (top roi)].
Proof.
  unfold push_roi. intros H.
  apply bind_sdk_ret in H. destruct H as (x1 & d1 & _ & H).
  apply bind_sdk_ret in H. destruct H as (x2 & d2 & _ & H).
  apply bind_sdk_ret in H. destruct H as (x3 & d3 & _ & H).
  apply bind_sdk_ret in H. destruct H as (x4 & d4 & _ & H).
  apply bind_sdk_ret in H. destruct H as (x5 & d5 & _ & H).
  apply bind_sdk_ret in H. destruct H as (x6 & d6 & _ & H).
  unfold ret in H. injection H as _ <-. cbn [calls with_handle].
  rewrite !map_app. cbn. rewrite <- !app_assoc. reflexivity.
Qed.

(** X3.  On a camera that is not enabled, a [_set_roi] whose first write
    sequence the hardware accepts makes exactly six calls, in this
    order: both offsets are zeroed, then the width and the height are
    written, then the requested offsets; it returns [True], the mirrored
    ROI is the request, and nothing else of the camera changes. *)
Theorem set_roi_accepted_writes_in_order (depth : nat) (roi : ROI) (c : camera dev) :
  enabled c = false ->
  exceeds roi (_sensor_shape c) = false ->
  fst (write_roi roi c) = Ret tt ->
  fst (_set_roi (S depth) roi c) = Ret true /\
  _roi (snd (_set_roi (S depth) roi c)) = roi /\
  map request (calls (snd (_set_roi (S depth) roi c))) =
    map request (calls c) ++
      [set_offsetX 0; set_offsetY 0; set_width (width roi); set_height (height roi);
       set_offsetX (left roi); set_offsetY (top roi)] /\
  enabled (snd (_set_roi (S depth) roi c)) = false /\
  _acquiring (snd (_set_roi (S depth) roi c)) = _acquiring c.
Proof.
  intros Hoff Hfits Hwrite.
  destruct (write_roi roi c) as [r c1] eqn:Hrun. cbn in Hwrite. subst r.
  rewrite (set_roi_after_write depth roi c c1 tt Hfits Hrun). cbn [fst snd].
  unfold write_roi in Hrun. rewrite (disabled_camera_off _ c Hoff) in Hrun.
  pose proof (push_roi_ret roi c c1 tt Hrun) as Hcalls.
  pose proof (preserves_push_roi (fun s => enabled s = false /\ _acquiring s = _acquiring c)
                (fun _ _ _ H => H) roi c (conj Hoff eq_refl)) as Hflags.
  rewrite Hrun in Hflags. cbn in Hflags. destruct Hflags as [Hen Hacq].
  repeat split; auto.
Qed.

End RoiMore.

Lemma set_roi_failure_keeps_mirror_witness :
  _roi (snd (_set_roi 5 (mkROI 0 0 1000 1000)
               (bench (refusing is_set_width (Xi_error (Some _XI_INVALID_ARGUMENTS)))
                  true true full_frame software_once))) = full_frame.
Proof.
  apply (set_roi_failure_keeps_mirror 5 (mkROI 0 0 1000 1000)
           (bench (refusing is_set_width (Xi_error (Some _XI_INVALID_ARGUMENTS)))
              true true full_frame software_once)
           (snd (_set_roi 5 (mkROI 0 0 1000 1000)
                   (bench (refusing is_set_width (Xi_error (Some _XI_INVALID_ARGUMENTS)))
                      true true full_frame software_once)))
           ZeroDivisionError).
  vm_compute. reflexivity.
Defined.

Lemma set_roi_bounds_witness :
  _set_roi 3 (mkROI 0 0 2049 2048) (bench obliging false false full_frame software_once)
  = (Raise (ValueError (mkROI 0 0 2049 2048) (2048, 2048)),
     bench obliging false false full_frame software_once)
  /\ 2048 + 0 <= 2048.
Proof.
  split.
  - apply (proj1 (set_roi_bounds 2 (mkROI 0 0 2049 2048)
                    (bench obliging false false full_frame software_once))).
    vm_compute. reflexivity.
  - apply (proj2 (set_roi_bounds 3 full_frame
                    (bench obliging false false full_frame software_once))
             true
             (snd (_set_roi 3 full_frame
                     (bench obliging false false full_frame software_once)))).
    vm_compute. reflexivity.
Defined.

Lemma set_roi_accepted_writes_in_order_witness :
  map request (calls (snd (_set_roi 3 (mkROI 8 16 640 480)
                             (bench gridded false false full_frame software_once))))
  = [set_offsetX 0; set_offsetY 0; set_width 640; set_height 480;
     set_offsetX 8; set_offsetY 16].
Proof.
  apply (set_roi_accepted_writes_in_order 2 (mkROI 8 16 640 480)
           (bench gridded false false full_frame software_once));
    vm_compute; reflexivity.
Defined.

(** ** More on the trigger *)

Section TriggerMore.
Context {dev : Type} {handle : Handle dev}.

(** X15.  The mapping table has exactly three keys, the repeated
    (RISING_EDGE, ONCE) entry counting once: a (type, mode) pair is
    mapped exactly if it is (SOFTWARE, STROBE), (SOFTWARE, ONCE) or
    (RISING_EDGE, ONCE), to the source codes XI_TRG_OFF, XI_TRG_SOFTWARE
    and XI_TRG_EDGE_RISING; every mapped pair has the frame-start
    selector, and distinct keys have distinct native pairs. *)
Theorem TRIGGER_TABLE_keys (ttype : TriggerType) (tmode : TriggerMode)
    (native : string * string) :
  (dict_get trigger_key_eqb (ttype, tmode) TRIGGER_TABLE = Some native <->
     (ttype, tmode, native)
       = (SOFTWARE, STROBE, ("XI_TRG_OFF", "XI_TRG_SEL_FRAME_START")) \/
     (ttype, tmode, native)
       = (SOFTWARE, ONCE, ("XI_TRG_SOFTWARE", "XI_TRG_SEL_FRAME_START")) \/
     (ttype, tmode, native)
       = (RISING_EDGE, ONCE, ("XI_TRG_EDGE_RISING", "XI_TRG_SEL_FRAME_START")))
  /\
  (dict_get trigger_key_eqb (ttype, tmode) TRIGGER_TABLE = Some native ->
     snd native = "XI_TRG_SEL_FRAME_START" /\
     forall ttype' tmode',
       dict_get trigger_key_eqb (ttype', tmode') TRIGGER_TABLE = Some native ->
       (ttype', tmode') = (ttype, tmode)).
Proof.
  assert (Hiff : dict_get trigger_key_eqb (ttype, tmode) TRIGGER_TABLE = Some native <->
     (ttype, tmode, native)
       = (SOFTWARE, STROBE, ("XI_TRG_OFF", "XI_TRG_SEL_FRAME_START")) \/
     (ttype, tmode, native)
       = (SOFTWARE, ONCE, ("XI_TRG_SOFTWARE", "XI_TRG_SEL_FRAME_START")) \/
     (ttype, tmode, native)
       = (RISING_EDGE, ONCE, ("XI_TRG_EDGE_RISING", "XI_TRG_SEL_FRAME_START"))).
  { rewrite TRIGGER_TABLE_items.
    destruct ttype, tmode; cbn; split; intros H;
      try discriminate;
      try (injection H as <-; auto);
      try (destruct H as [H | [H | H]]; try discriminate H; injection H as <-; reflexivity);
      try (destruct H as [H | [H | H]]; discriminate H). }
  split; [ exact Hiff | ].
  intros Hget. apply Hiff in Hget. split.
  - destruct Hget as [H | [H | H]]; injection H as _ _ ->; reflexivity.
  - intros ttype' tmode' Hget'. rewrite TRIGGER_TABLE_items in Hget'.
    destruct Hget as [H | [H | H]]; injection H as -> -> ->;
      destruct ttype', tmode'; cbn in Hget'; try discriminate Hget'; reflexivity.
Qed.

(** X6.  A [set_trigger] that raises, because the pair is not mapped or
    because the hardware or the stop and restart around the push
    failed, leaves the cached native pair as it was. *)
Theorem set_trigger_failure_keeps_cache (ttype : TriggerType) (tmode : TriggerMode)
    (c c' : camera dev) (e : exn) :
  set_trigger ttype tmode c = (Raise e, c') ->
  _trigger_map c' = _trigger_map c.
Proof.
  unfold set_trigger, TRIGGER_TABLE_getitem.
  destruct (dict_get trigger_key_eqb (ttype, tmode) TRIGGER_TABLE) as [new_map | ].
  - unfold bind at 1. unfold try_except, ret at 1.
    unfold bind at 1. unfold gets at 1.
    destruct (negb (native_pair_eqb new_map (_trigger_map c))); [ | discriminate ].
    unfold bind at 1.
    pose proof (preserves_disabled_camera (fun s => _trigger_map s = _trigger_map c)
                  (fun _ _ _ H => H) (fun _ _ H => H) (fun _ _ H => H)
                  (bind (sdk (set_trigger_source (fst new_map)))
                     (fun _ => bind (sdk (set_trigger_selector (snd new_map)))
                                 (fun _ => ret tt)))) as Hkeep.
    assert (Hbody : preserves (fun s => _trigger_map s = _trigger_map c)
                      (bind (sdk (set_trigger_source (fst new_map)))
                         (fun _ => bind (sdk (set_trigger_selector (snd new_map)))
                                     (fun _ => ret tt)))).
    { apply preserves_bind; [ apply preserves_sdk; auto | intro ].
      apply preserves_bind; [ apply preserves_sdk; auto | intro ].
      apply preserves_ret. }
    specialize (Hkeep Hbody c eq_refl).
    destruct (_disabled_camera _ c) as [[u | e0] c1]; cbn in Hkeep.
    + discriminate.
    + intros H. injection H as _ <-. exact Hkeep.
  - unfold bind, try_except, raise. intros H. injection H as _ <-. reflexivity.
Qed.

(** X5.  A [set_trigger] that returns has cached the native pair of the
    requested (type, mode), and asking for the same pair again does
    nothing: no call reaches the hardware (so acquisition is not
    interrupted) and the camera is unchanged. *)
Theorem set_trigger_twice_pushes_once (ttype : TriggerType) (tmode : TriggerMode)
    (c c' : camera dev) :
  set_trigger ttype tmode c = (Ret tt, c') ->
  dict_get trigger_key_eqb (ttype, tmode) TRIGGER_TABLE = Some (_trigger_map c') /\
  set_trigger ttype tmode c' = (Ret tt, c').
Proof.
  intros Hrun.
  assert (Hcached : dict_get trigger_key_eqb (ttype, tmode) TRIGGER_TABLE
                    = Some (_trigger_map c')).
  { revert Hrun. unfold set_trigger, TRIGGER_TABLE_getitem.
    destruct (dict_get trigger_key_eqb (ttype, tmode) TRIGGER_TABLE) as [new_map | ].
    - unfold bind at 1. unfold try_except, ret at 1.
      unfold bind at 1. unfold gets at 1.
      destruct (native_pair_eqb new_map (_trigger_map c)) eqn:Heq; cbn [negb].
      + unfold ret. intros H. injection H as <-.
        apply native_pair_eqb_eq in Heq. congruence.
      + unfold bind. destruct (_disabled_camera _ c) as [[u | e0] c1]; [ | discriminate ].
        unfold modify. intros H. injection H as <-. reflexivity.
    - unfold bind, try_except, raise. discriminate. }
  split; [ exact Hcached | apply set_trigger_cached, Hcached ].
Qed.

(** X4.  On a camera that is not enabled, a [set_trigger] for a mapped
    pair other than the cached one that returns has made exactly two
    calls, the trigger source and then the trigger selector of the
    mapped native pair, both accepted, and has cached that pair. *)
Theorem set_trigger_pushes_source_then_selector (ttype : TriggerType)
    (tmode : TriggerMode) (native : string * string) (c c' : camera dev) :
  enabled c = false ->
  dict_get trigger_key_eqb (ttype, tmode) TRIGGER_TABLE = Some native ->
  native <> _trigger_map c ->
  set_trigger ttype tmode c = (Ret tt, c') ->
  _trigger_map c' = native /\
  map request (calls c') =
    map request (calls c) ++ [set_trigger_source (fst native);
                              set_trigger_selector (snd native)] /\
  forallb answered_ok (skipn (List.length (calls c)) (calls c')) = true.
Proof.
  intros Hoff Hget Hnew. apply native_pair_eqb_neq in Hnew.
  unfold set_trigger, TRIGGER_TABLE_getitem. rewrite Hget.
  unfold bind at 1. unfold try_except, ret at 1.
  unfold bind at 1. unfold gets at 1. rewrite Hnew. cbn [negb].
  unfold bind at 1. rewrite (disabled_camera_off _ c Hoff).
  destruct (bind (sdk (set_trigger_source (fst native))) _ c) as [[u | e] c1] eqn:Hpush;
    [ | discriminate ].
  unfold modify. intros H. injection H as <-.
  apply bind_sdk_ret in Hpush. destruct Hpush as (x1 & d1 & _ & Hpush).
  apply bind_sdk_ret in Hpush. destruct Hpush as (x2 & d2 & _ & Hpush).
  unfold ret in Hpush. injection Hpush as Hc1. subst c1.
  cbn [_trigger_map with_trigger_map calls with_handle].
  repeat split.
  - rewrite !map_app, <- app_assoc. reflexivity.
  - rewrite <- app_assoc, skipn_app, skipn_all, Nat.sub_diag. reflexivity.
Qed.

End TriggerMore.

Lemma set_trigger_failure_keeps_cache_witness :
  _trigger_map (snd (set_trigger RISING_EDGE ONCE
                       (bench (refusing trigger_push (Xi_error (Some 1))) true true
                          full_frame software_once))) = software_once.
Proof.
  apply (set_trigger_failure_keeps_cache RISING_EDGE ONCE
           (bench (refusing trigger_push (Xi_error (Some 1))) true true
              full_frame software_once)
           (snd (set_trigger RISING_EDGE ONCE
                   (bench (refusing trigger_push (Xi_error (Some 1))) true true
                      full_frame software_once)))
           (Xi_error (Some 1))).
  vm_compute. reflexivity.
Defined.

Lemma set_trigger_twice_pushes_once_witness :
  set_trigger RISING_EDGE ONCE
    (snd (set_trigger RISING_EDGE ONCE
            (bench obliging true true full_frame software_once)))
  = (Ret tt,
     snd (set_trigger RISING_EDGE ONCE
            (bench obliging true true full_frame software_once))).
Proof.
  destruct (set_trigger_twice_pushes_once RISING_EDGE ONCE
              (bench obliging true true full_frame software_once)
              (snd (set_trigger RISING_EDGE ONCE
                      (bench obliging true true full_frame software_once))))
    as [_ Hagain].
  - vm_compute. reflexivity.
  - exact Hagain.
Defined.

Lemma set_trigger_pushes_source_then_selector_witness :
  map request (calls (snd (set_trigger SOFTWARE STROBE
                             (bench obliging false false full_frame software_once))))
  = [set_trigger_source "XI_TRG_OFF"; set_trigger_selector "XI_TRG_SEL_FRAME_START"].
Proof.
  apply (set_trigger_pushes_source_then_selector SOFTWARE STROBE
           ("XI_TRG_OFF", "XI_TRG_SEL_FRAME_START")
           (bench obliging false false full_frame software_once)
           (snd (set_trigger SOFTWARE STROBE
                   (bench obliging false false full_frame software_once)))).
  - reflexivity.
  - reflexivity.
  - discriminate.
  - vm_compute. reflexivity.
Defined.

(** ** Reading the ROI, fetching, shutting down *)

Section ReadProperties.
Context {dev : Type} {handle : Handle dev}.

Lemma ROI_eqb_eq (a b : ROI) : ROI_eqb a b = true <-> a = b.
Proof.
  unfold ROI_eqb. rewrite !andb_true_iff, !Z.eqb_eq. split.
  - intros [[[Hl Ht] Hw] Hh]. apply ROI_components; assumption.
  - intros ->. auto.
Qed.

(** X8.  [_get_roi] never changes the mirrored ROI.  When it returns,
    the value is the mirrored ROI and the hardware has just reported
    exactly its components: offset X, offset Y, width and height, read in
    that order.  When it raises although the four reads were accepted,
    the exception is the assertion failure and the hardware reported a
    rectangle other than the mirrored one. *)
Theorem get_roi_checks_mirror_against_hardware (c c' : camera dev) (o : outcome ROI) :
  _get_roi c = (o, c') ->
  _roi c' = _roi c /\
  exists new,
    calls c' = calls c ++ new /\
    match o with
    | Ret r =>
        r = _roi c /\
        map exchange new =
          [(get_offsetX, Ok (left r)); (get_offsetY, Ok (top r));
           (get_width, Ok (width r)); (get_height, Ok (height r))]
    | Raise e =>
        forallb answered_ok new = true ->
        e = AssertionError "ROI attribute is out of sync with internal camera setting" /\
        exists x y w hh,
          map exchange new =
            [(get_offsetX, Ok x); (get_offsetY, Ok y); (get_width, Ok w);
             (get_height, Ok hh)] /\
          mkROI x y w hh <> _roi c
    end.
Proof.
  unfold _get_roi, bind, gets, sdk, raise.
  destruct (xi (_handle c) get_offsetX) as [[x | e1] d1]; cbn [_handle with_handle].
  2:{ intros H. injection H as <- <-. split; [ reflexivity | ].
      eexists. split; [ reflexivity | ]. cbn. discriminate. }
  destruct (xi d1 get_offsetY) as [[y | e2] d2]; cbn [_handle with_handle].
  2:{ intros H. injection H as <- <-. split; [ reflexivity | ].
      eexists. split; [ cbn; rewrite <- app_assoc; reflexivity | ]. cbn. discriminate. }
  destruct (xi d2 get_width) as [[w | e3] d3]; cbn [_handle with_handle].
  2:{ intros H. injection H as <- <-. split; [ reflexivity | ].
      eexists. split; [ cbn; rewrite <- !app_assoc; reflexivity | ]. cbn. discriminate. }
  destruct (xi d3 get_height) as [[hh | e4] d4]; cbn [_handle with_handle].
  2:{ intros H. injection H as <- <-. split; [ reflexivity | ].
      eexists. split; [ cbn; rewrite <- !app_assoc; reflexivity | ]. cbn. discriminate. }
  destruct (ROI_eqb (_roi c) (mkROI x y w hh)) eqn:Heq;
    intros H; injection H as <- <-; (split; [ reflexivity | ]);
    (eexists; split; [ cbn; rewrite <- !app_assoc; reflexivity | ]).
  - apply ROI_eqb_eq in Heq. cbn [_roi]. split; [ reflexivity | ].
    rewrite Heq. reflexivity.
  - intros _. split; [ reflexivity | ]. exists x, y, w, hh. split; [ reflexivity | ].
    intros Hsame. rewrite <- Hsame in Heq.
    assert (Htrue : ROI_eqb (mkROI x y w hh) (mkROI x y w hh) = true)
      by (apply ROI_eqb_eq; reflexivity).
    congruence.
Qed.

(** X9.  A fetch that returns a frame was made on an acquiring camera
    and made exactly two calls, both accepted: [get_image] with a
    timeout of 1, then the read of the frame data, whose answer is the
    frame returned.  A fetch that returns no data either found the camera
    not acquiring and made no call, or made the one [get_image] call and
    was answered with an [Xi_error]: it never drops a frame the
    hardware delivered. *)
Theorem fetch_data_returns_what_was_read (during : bool -> bool) (c c' : camera dev)
    (result : option Z) :
  _fetch_data during c = (Ret result, c') ->
  match result with
  | Some data =>
      _acquiring c = true /\
      exists x new,
        calls c' = calls c ++ new /\
        map exchange new = [(get_image 1, Ok x); (get_image_data_numpy, Ok data)]
  | None =>
      (_acquiring c = false /\ c' = c) \/
      (_acquiring c = true /\
       exists status ev,
         calls c' = calls c ++ [ev] /\
         exchange ev = (get_image 1, Err (Xi_error status)))
  end.
Proof.
  unfold _fetch_data, bind, gets.
  destruct (_acquiring c) eqn:Hacq; cbn [negb].
  2:{ unfold ret. intros H. injection H as <- <-. left. auto. }
  unfold try_except, blocking, sdk, bind, ret, raise.
  destruct (xi (_handle c) (get_image 1)) as [[x | e] d]; cbn [_handle with_handle with_acquiring].
  - destruct (xi d get_image_data_numpy) as [[data | e'] d']; [ | discriminate ].
    intros H. injection H as <- <-. split; [ reflexivity | ].
    exists x. eexists. split.
    + cbn. rewrite <- app_assoc. reflexivity.
    + reflexivity.
  - destruct e as [status | | | | | | | | | | | | ]; try discriminate.
    assert (Hnone : forall s : camera dev,
              calls s = calls c ++ [mkEvent (get_image 1) (Err (Xi_error status)) true] ->
              (Ret None, s) = (Ret result, c') ->
              match result with
              | Some data =>
                  true = true /\
                  exists x new,
                    calls c' = calls c ++ new /\
                    map exchange new = [(get_image 1, Ok x); (get_image_data_numpy, Ok data)]
              | None =>
                  (true = false /\ c' = c) \/
                  (true = true /\
                   exists status0 ev,
                     calls c' = calls c ++ [ev] /\
                     exchange ev = (get_image 1, Err (Xi_error status0)))
              end).
    { intros s Hs H. injection H as <- <-. right. split; [ reflexivity | ].
      exists status. eexists. split; [ exact Hs | reflexivity ]. }
    destruct (status_is _XI_TIMEOUT status).
    + apply Hnone. cbn. rewrite Hacq. reflexivity.
    + cbn [_acquiring with_acquiring with_handle].
      destruct (status_is _XI_ACQUISITION_STOPED status && negb (during (_acquiring c))).
      * apply Hnone. cbn. rewrite Hacq. reflexivity.
      * discriminate.
Qed.

Lemma do_shutdown_keeps (CAM_OPEN : dev -> bool) (P : camera dev -> Prop) :
  (forall d ev c, P c -> P (with_handle d ev c)) ->
  preserves P (_do_shutdown CAM_OPEN).
Proof.
  intros Hh. unfold _do_shutdown.
  repeat first
    [ simple apply preserves_ret | simple apply preserves_gets
    | simple apply preserves_sdk; assumption
    | simple apply preserves_bind; [ | intro ]
    | match goal with
      | |- preserves _ (if ?b then _ else _) => destruct b
      end ].
Qed.

(** X16.  [_do_shutdown] never writes an attribute of the camera: in
    particular the acquisition flag is left as it was, also after the
    hardware has been stopped.  On an acquiring camera whose stop call
    fails the exception leaves at once and the device is not closed; on a
    camera that is not acquiring and whose device is not open nothing
    is asked of the hardware. *)
Theorem do_shutdown_leaves_attributes (CAM_OPEN : dev -> bool) (c : camera dev) :
  (_acquiring (snd (_do_shutdown CAM_OPEN c)) = _acquiring c /\
   enabled (snd (_do_shutdown CAM_OPEN c)) = enabled c /\
   _roi (snd (_do_shutdown CAM_OPEN c)) = _roi c /\
   _trigger_map (snd (_do_shutdown CAM_OPEN c)) = _trigger_map c)
  /\
  (_acquiring c = true ->
     forall e d, xi (_handle c) stop_acquisition = (Err e, d) ->
       _do_shutdown CAM_OPEN c
       = (Raise e, with_handle d (mkEvent stop_acquisition (Err e) true) c))
  /\
  (_acquiring c = false -> CAM_OPEN (_handle c) = false ->
     _do_shutdown CAM_OPEN c = (Ret tt, c)).
Proof.
  split; [ | split ].
  - apply (do_shutdown_keeps CAM_OPEN
             (fun s => _acquiring s = _acquiring c /\ enabled s = enabled c /\
                       _roi s = _roi c /\ _trigger_map s = _trigger_map c)); auto.
  - intros Hacq e d Hxi. unfold _do_shutdown, bind, gets, sdk, ret.
    rewrite Hacq, Hxi. cbn. rewrite Hacq. reflexivity.
  - intros Hacq Hclosed. unfold _do_shutdown, bind, gets, ret.
    rewrite Hacq, Hclosed. reflexivity.
Qed.

End ReadProperties.

Lemma get_roi_checks_mirror_against_hardware_witness :
  exists new,
    calls (snd (_get_roi (bench obliging false false full_frame software_once)))
    = [] ++ new /\
    (forallb answered_ok new = true ->
     AssertionError "ROI attribute is out of sync with internal camera setting"
     = AssertionError "ROI attribute is out of sync with internal camera setting" /\
     exists x y w hh,
       map exchange new =
         [(get_offsetX, Ok x); (get_offsetY, Ok y); (get_width, Ok w); (get_height, Ok hh)] /\
       mkROI x y w hh <> full_frame).
Proof.
  exact (proj2 (get_roi_checks_mirror_against_hardware
                  (bench obliging false false full_frame software_once)
                  (snd (_get_roi (bench obliging false false full_frame software_once)))
                  (Raise (AssertionError
                            "ROI attribute is out of sync with internal camera setting"))
                  eq_refl)).
Defined.

Lemma fetch_data_returns_what_was_read_witness :
  _acquiring (bench obliging true true full_frame software_once) = true /\
  exists x new,
    calls (snd (_fetch_data (fun b => b)
                  (bench obliging true true full_frame software_once))) = [] ++ new /\
    map exchange new = [(get_image 1, Ok x); (get_image_data_numpy, Ok 0)].
Proof.
  exact (fetch_data_returns_what_was_read (fun b => b)
           (bench obliging true true full_frame software_once)
           (snd (_fetch_data (fun b => b)
                   (bench obliging true true full_frame software_once)))
           (Some 0) eq_refl).
Defined.

Lemma do_shutdown_leaves_attributes_witness :
  _do_shutdown (fun _ => true)
    (bench (refusing (fun _ => true) (Xi_error (Some 1))) true true full_frame software_once)
  = (Raise (Xi_error (Some 1)),
     with_handle (mkScripted (refusing (fun _ => true) (Xi_error (Some 1))) 1)
       (mkEvent stop_acquisition (Err (Xi_error (Some 1))) true)
       (bench (refusing (fun _ => true) (Xi_error (Some 1))) true true
          full_frame software_once))
  /\ _do_shutdown (fun _ => false)
       (bench obliging false false full_frame software_once)
     = (Ret tt, bench obliging false false full_frame software_once).
Proof.
  split.
  - apply (proj1 (proj2 (do_shutdown_leaves_attributes (fun _ => true)
                           (bench (refusing (fun _ => true) (Xi_error (Some 1)))
                              true true full_frame software_once)))).
    + reflexivity.
    + reflexivity.
  - apply (proj2 (proj2 (do_shutdown_leaves_attributes (fun _ => false)
                           (bench obliging false false full_frame software_once))));
      reflexivity.
Defined.

(** ** The retry of [_set_roi], axis by axis *)

Lemma axis_events_app (on_axis : call -> bool) (a b : list event) :
  axis_events on_axis (a ++ b) = axis_events on_axis a ++ axis_events on_axis b.
Proof. apply filter_app. Qed.

Lemma axis_events_none (on_axis allowed : call -> bool) (evs : list event) :
  (forall q, allowed q = true -> on_axis q = false) ->
  forallb (fun ev => allowed (request ev)) evs = true ->
  axis_events on_axis evs = [].
Proof.
  intros Hdisjoint. induction evs as [ | ev evs IH]; cbn; [ reflexivity | ].
  intros H. apply andb_true_iff in H. destruct H as [H1 H2].
  rewrite (Hdisjoint _ H1). apply IH, H2.
Qed.

Lemma axis_corrected_around (requested previous applied : Z) (on_axis : call -> bool)
    (q : call) (set : Z -> call) (pre evs post : list event) :
  axis_events on_axis pre = [] -> axis_events on_axis post = [] ->
  axis_corrected requested previous applied on_axis q set evs ->
  axis_corrected requested previous applied on_axis q set (pre ++ evs ++ post).
Proof.
  intros Hpre Hpost H. unfold axis_corrected.
  rewrite !axis_events_app, Hpre, Hpost, app_nil_r. exact H.
Qed.

Section RetryProperties.
Context {dev : Type} {handle : Handle dev}.

Lemma correct_axis_ret (x : Z) (mirrored : ROI -> Z) (g : call) (set : Z -> call)
    (c c' : camera dev) (x' : Z) :
  correct_axis x mirrored g set c = (Ret x', c') ->
  exists new,
    calls c' = calls c ++ new /\
    (forall other : call -> bool,
       other g = false -> (forall v, other (set v) = false) ->
       axis_events other new = []) /\
    (forall on_axis : call -> bool,
       on_axis g = true -> (forall v, on_axis (set v) = true) ->
       axis_corrected x (mirrored (_roi c)) x' on_axis g set new).
Proof.
  unfold correct_axis, bind, gets.
  destruct (Z.eqb_spec x (mirrored (_roi c))) as [Hsame | Hdiff]; cbn [negb].
  - unfold ret. intros H. injection H as <- <-.
    exists []. rewrite app_nil_r. split; [ reflexivity | ].
    split; [ reflexivity | ].
    intros on_axis _ _. split; [ intros _; split; reflexivity | contradiction ].
  - unfold sdk at 1. destruct (xi (_handle c) g) as [[incr | e] d]; [ | discriminate ].
    unfold quantize, evaluate.
    destruct (quantized x incr) as [x1 | e] eqn:Hq; [ | discriminate ].
    unfold sdk. cbn [_handle with_handle].
    destruct (xi d (set x1)) as [[y | e] d']; [ | discriminate ].
    unfold ret. intros H. injection H as <- <-.
    eexists. split; [ cbn; rewrite <- app_assoc; reflexivity | ].
    split.
    + intros other Hg Hset. unfold axis_events. cbn. rewrite Hg, Hset. reflexivity.
    + intros on_axis Hg Hset. split; [ contradiction | ]. intros _.
      exists incr, y. unfold axis_events. cbn. rewrite Hg, Hset. cbn.
      destruct (quantized_multiple _ _ _ Hq) as [Hincr Hmod].
      split; [ reflexivity | ]. split; [ reflexivity | ]. split; [ exact Hq | ].
      split; [ exact Hincr | ]. split; [ exact Hmod | ].
      intros Hsmall. rewrite (quantized_small x incr Hincr Hsmall) in Hq.
      injection Hq as <-. apply rounded_to_grid_nearest, Hincr.
Qed.

Lemma correct_roi_ret (roi r : ROI) (c c' : camera dev) :
  correct_roi roi c = (Ret r, c') ->
  exists new,
    calls c' = calls c ++ new /\
    axis_corrected (height roi) (height (_roi c)) (height r)
      height_axis get_height_increment set_height new /\
    axis_corrected (width roi) (width (_roi c)) (width r)
      width_axis get_width_increment set_width new /\
    axis_corrected (left roi) (left (_roi c)) (left r)
      left_axis get_offsetX_increment set_offsetX new /\
    axis_corrected (top roi) (top (_roi c)) (top r)
      top_axis get_offsetY_increment set_offsetY new.
Proof.
  unfold correct_roi. cbv zeta. unfold bind.
  destruct (correct_axis (height roi) _ _ _ c) as [[h1 | e] c1] eqn:H1; [ | discriminate ].
  destruct (correct_axis (width roi) _ _ _ c1) as [[w1 | e] c2] eqn:H2; [ | discriminate ].
  destruct (correct_axis (left roi) _ _ _ c2) as [[l1 | e] c3] eqn:H3; [ | discriminate ].
  destruct (correct_axis (top roi) _ _ _ c3) as [[t1 | e] c4] eqn:H4; [ | discriminate ].
  unfold ret. intros H. injection H as <- <-.
  pose proof (proj1 (correct_axis_kept _ _ _ _ _ _ _ H1)) as R1.
  pose proof (proj1 (correct_axis_kept _ _ _ _ _ _ _ H2)) as R2.
  pose proof (proj1 (correct_axis_kept _ _ _ _ _ _ _ H3)) as R3.
  apply correct_axis_ret in H1, H2, H3, H4.
  destruct H1 as (n1 & C1 & O1 & A1), H2 as (n2 & C2 & O2 & A2),
           H3 as (n3 & C3 & O3 & A3), H4 as (n4 & C4 & O4 & A4).
  rewrite R1 in A2. rewrite R2, R1 in A3. rewrite R3, R2, R1 in A4.
  exists (n1 ++ n2 ++ n3 ++ n4). split.
  - rewrite C4, C3, C2, C1, <- !app_assoc. reflexivity.
  - cbn [height width left top]. split; [ | split; [ | split ] ].
    + unfold axis_corrected. rewrite !axis_events_app.
      rewrite (O2 height_axis), (O3 height_axis), (O4 height_axis) by reflexivity.
      rewrite !app_nil_r. exact (A1 height_axis eq_refl (fun _ => eq_refl)).
    + unfold axis_corrected. rewrite !axis_events_app.
      rewrite (O1 width_axis), (O3 width_axis), (O4 width_axis) by reflexivity.
      cbn [app]. rewrite !app_nil_r. exact (A2 width_axis eq_refl (fun _ => eq_refl)).
    + unfold axis_corrected. rewrite !axis_events_app.
      rewrite (O1 left_axis), (O2 left_axis), (O4 left_axis) by reflexivity.
      cbn [app]. rewrite !app_nil_r. exact (A3 left_axis eq_refl (fun _ => eq_refl)).
    + unfold axis_corrected. rewrite !axis_events_app.
      rewrite (O1 top_axis), (O2 top_axis), (O3 top_axis) by reflexivity.
      cbn [app]. exact (A4 top_axis eq_refl (fun _ => eq_refl)).
Qed.

(** A [with _disabled_camera] statement that completes ran its body to
    completion, between stops and starts of the acquisition. *)
Lemma disabled_camera_ret_calls {A : Type} (body : M (camera dev) A)
    (c c2 : camera dev) (r : A) :
  _disabled_camera body c = (Ret r, c2) ->
  exists s s' pre post,
    body s = (Ret r, s') /\
    calls s = calls c ++ pre /\ calls c2 = calls s' ++ post /\
    _roi s = _roi c /\
    forallb (fun ev => acquisition_call (request ev)) pre = true /\
    forallb (fun ev => acquisition_call (request ev)) post = true /\
    forallb answered_ok pre = true /\ forallb answered_ok post = true.
Proof.
  assert (Hstop : forall q, stop_call q = true -> acquisition_call q = true).
  { intros q Hq. destruct q; try discriminate Hq; reflexivity. }
  destruct (enabled c) eqn:Hen.
  - rewrite (disabled_camera_on body c Hen). unfold try_finally, bind.
    assert (Hoff : confined (fun s : camera dev => _roi s = _roi c)
                     acquisition_call disable).
    { apply confined_disable; try exact Hstop; intros; assumption. }
    destruct (Hoff c eq_refl) as (Hroi & pre & Hpre & Hfoot).
    destruct (surfaces_disable c) as (pre' & Hpre' & Hok).
    destruct (disable c) as [[u | e] s]; cbn in Hpre, Hpre', Hroi, Hok.
    + destruct (body s) as [rb s'] eqn:Hbody.
      assert (Hon : confined (dev := dev) anything acquisition_call enable).
      { apply confined_enable; try (intros; exact I). intros q Hq; exact Hq. }
      destruct (Hon s' I) as (_ & post & Hpost & Hfoot').
      destruct (surfaces_enable s') as (post' & Hpost' & Hok').
      destruct (enable s') as [[b | e] c3]; cbn in Hpost, Hpost', Hok'; [ | discriminate ].
      intros H. injection H as -> ->.
      assert (pre' = pre) by (apply (app_inv_head (calls c)); congruence).
      assert (post' = post) by (apply (app_inv_head (calls s')); congruence).
      subst pre' post'.
      exists s, s', pre, post.
      split; [ exact Hbody | ]. split; [ exact Hpre | ]. split; [ exact Hpost | ].
      split; [ exact Hroi | ]. split; [ exact Hfoot | ]. split; [ exact Hfoot' | ].
      split; [ exact (Hok u eq_refl) | exact (Hok' b eq_refl) ].
    + destruct (enable s) as [[b | e'] c3]; discriminate.
  - rewrite (disabled_camera_off body c Hen). intros Hbody.
    exists c, c2, [], []. rewrite !app_nil_r. cbn. auto 10.
Qed.

Lemma retry_roi_ret (roi r : ROI) (c c' : camera dev) :
  retry_roi roi c = (Ret r, c') ->
  exists new,
    calls c' = calls c ++ new /\
    forallb answered_ok new = true /\
    axis_corrected (height roi) (height (_roi c)) (height r)
      height_axis get_height_increment set_height new /\
    axis_corrected (width roi) (width (_roi c)) (width r)
      width_axis get_width_increment set_width new /\
    axis_corrected (left roi) (left (_roi c)) (left r)
      left_axis get_offsetX_increment set_offsetX new /\
    axis_corrected (top roi) (top (_roi c)) (top r)
      top_axis get_offsetY_increment set_offsetY new.
Proof.
  intros Hrun. apply disabled_camera_ret_calls in Hrun.
  destruct Hrun as (s & s' & pre & post & Hbody & Hpre & Hpost & Hroi
                    & Hfpre & Hfpost & Hokpre & Hokpost).
  destruct (surfaces_correct_roi roi s) as (new' & Hnew' & Hok).
  rewrite Hbody in Hnew', Hok. cbn in Hnew', Hok.
  apply correct_roi_ret in Hbody.
  destruct Hbody as (new & Hnew & Hh & Hw & Hl & Ht).
  assert (new' = new) by (apply (app_inv_head (calls s)); congruence). subst new'.
  rewrite Hroi in Hh, Hw, Hl, Ht.
  exists (pre ++ new ++ post). split.
  - rewrite Hpost, Hnew, Hpre, <- !app_assoc. reflexivity.
  - split.
    + rewrite !forallb_app, Hokpre, (Hok r eq_refl), Hokpost. reflexivity.
    + split; [ | split; [ | split ] ];
        (apply axis_corrected_around;
         [ apply (axis_events_none _ acquisition_call); [ | exact Hfpre ]
         | apply (axis_events_none _ acquisition_call); [ | exact Hfpost ]
         | assumption ];
         intros q Hq; destruct q; try discriminate Hq; reflexivity).
Qed.

(** X18.  When the first write sequence of [_set_roi] is rejected with
    the invalid-arguments status and the call then returns, every call
    made after the rejection was accepted, and the mirrored ROI is built
    axis by axis.  A component requested equal to the previously
    mirrored one is taken as requested, and no call is made for its
    axis: its increment is not asked and nothing is written, whether it
    lies on the grid or not.  For a component that differs, the
    increment of the axis is asked once and the corrected component,
    [round(x / incr) * incr] for a request off the grid and the request
    itself otherwise, is written once after it, and mirrored; it is a
    multiple of the increment, and for a request below [2 ^ 52] in
    magnitude the nearest one, ties going to the even factor. *)
Theorem set_roi_retry_corrects_changed_axes (depth : nat) (roi : ROI)
    (c c1 c' : camera dev) :
  write_roi roi c = (Raise (Xi_error (Some _XI_INVALID_ARGUMENTS)), c1) ->
  _set_roi (S depth) roi c = (Ret true, c') ->
  exists new,
    calls c' = calls c1 ++ new /\
    forallb answered_ok new = true /\
    axis_corrected (height roi) (height (_roi c)) (height (_roi c'))
      height_axis get_height_increment set_height new /\
    axis_corrected (width roi) (width (_roi c)) (width (_roi c'))
      width_axis get_width_increment set_width new /\
    axis_corrected (left roi) (left (_roi c)) (left (_roi c'))
      left_axis get_offsetX_increment set_offsetX new /\
    axis_corrected (top roi) (top (_roi c)) (top (_roi c'))
      top_axis get_offsetY_increment set_offsetY new.
Proof.
  intros Hwrite Hrun.
  pose proof (set_roi_ret_fits _ _ _ _ _ Hrun) as Hfits.
  rewrite (set_roi_after_Xi_error depth roi c c1 _ Hfits Hwrite) in Hrun.
  cbn [Z.eqb _XI_INVALID_ARGUMENTS Pos.eqb] in Hrun.
  destruct (retry_roi roi c1) as [[r | e] c2] eqn:Hretry; [ | discriminate ].
  injection Hrun as <-.
  apply retry_roi_ret in Hretry.
  pose proof (roi_kept_by_write roi c) as Hkept. rewrite Hwrite in Hkept.
  cbn in Hkept. rewrite Hkept in Hretry.
  exact Hretry.
Qed.

End RetryProperties.

Lemma set_roi_retry_corrects_changed_axes_witness :
  let c := bench gridded false false full_frame software_once in
  let roi := mkROI 0 0 1001 999 in
  _roi (snd (_set_roi 10 roi c)) = mkROI 0 0 1000 1000
  /\ exists new,
       calls (snd (_set_roi 10 roi c)) = calls (snd (write_roi roi c)) ++ new /\
       forallb answered_ok new = true /\
       axis_corrected 999 2048 (height (_roi (snd (_set_roi 10 roi c))))
         height_axis get_height_increment set_height new /\
       axis_corrected 1001 2048 (width (_roi (snd (_set_roi 10 roi c))))
         width_axis get_width_increment set_width new /\
       axis_corrected 0 0 (left (_roi (snd (_set_roi 10 roi c))))
         left_axis get_offsetX_increment set_offsetX new /\
       axis_corrected 0 0 (top (_roi (snd (_set_roi 10 roi c))))
         top_axis get_offsetY_increment set_offsetY new.
Proof.
  cbv zeta. split; [ vm_compute; reflexivity | ].
  apply (set_roi_retry_corrects_changed_axes 9 (mkROI 0 0 1001 999)
           (bench gridded false false full_frame software_once)
           (snd (write_roi (mkROI 0 0 1001 999)
                   (bench gridded false false full_frame software_once)))).
  - vm_compute. reflexivity.
  - vm_compute. reflexivity.
Defined.

(** ** Rounding, scoped blocks and start-up *)

Section StartupProperties.
Context {dev : Type} {handle : Handle dev}.

(** X14.  The correction of one component,
    [round(x / incr) * incr if x % incr != 0 else x].  An increment of 0
    makes it raise [ZeroDivisionError]; with any other increment a
    component that is a multiple of it is kept, and whatever the
    correction returns is a multiple of the increment.  The quotient
    is rounded as a double: for a component below [2 ^ 52] in
    magnitude the result is the multiple of the increment nearest to
    the component, never further than half an increment away, the one
    with the even factor in a tie, and correcting it again changes
    nothing; beyond that the double need not hold the quotient, and
    for [2 ^ 60 + 1] and the increment 3 the result is 65 away from
    the component.  In the retry, a changed axis whose increment is
    reported as 0 raises that error after the increment query, with no
    write made for the axis. *)
Theorem quantize_rounds_to_grid (x incr : Z) (c : camera dev) :
  (incr = 0 -> quantize x incr c = (Raise ZeroDivisionError, c))
  /\
  (incr <> 0 -> x mod incr = 0 -> quantize x incr c = (Ret x, c))
  /\
  (forall x' c', quantize x incr c = (Ret x', c') ->
     c' = c /\ incr <> 0 /\ x' mod incr = 0)
  /\
  (incr <> 0 -> Z.abs x < 2 ^ 52 ->
     exists x',
       quantize x incr c = (Ret x', c) /\
       rounded_to_grid x x' incr /\
       quantize x' incr c = (Ret x', c))
  /\
  quantize (2 ^ 60 + 1) 3 c = (Ret (2 ^ 60 - 64), c)
  /\
  (forall (mirrored : ROI -> Z) (q : call) (set : Z -> call) (d : dev),
     x <> mirrored (_roi c) ->
     xi (_handle c) q = (Ok 0, d) ->
     correct_axis x mirrored q set c
     = (Raise ZeroDivisionError, with_handle d (mkEvent q (Ok 0) (_acquiring c)) c)).
Proof.
  split; [ | split; [ | split; [ | split; [ | split ] ] ] ].
  - intros ->. reflexivity.
  - intros Hincr Hon. unfold quantize, evaluate, quantized.
    destruct (Z.eqb_spec incr 0) as [ | _ ]; [ contradiction | ].
    rewrite Hon. reflexivity.
  - unfold quantize, evaluate. intros x' c' H. injection H as Hq <-.
    split; [ reflexivity | ]. exact (quantized_multiple x incr x' Hq).
  - intros Hincr Hsmall. unfold quantize, evaluate.
    exists (nearest_even_quotient x incr * incr).
    split; [ rewrite (quantized_small x incr Hincr Hsmall); reflexivity | ].
    split; [ apply rounded_to_grid_nearest, Hincr | ].
    unfold quantized.
    destruct (Z.eqb_spec incr 0) as [ | _ ]; [ contradiction | ].
    rewrite Z.mod_mul by exact Hincr. reflexivity.
  - vm_compute. reflexivity.
  - intros mirrored q set d Hdiff Hxi.
    unfold correct_axis, bind, gets, sdk.
    destruct (Z.eqb_spec x (mirrored (_roi c))) as [ | _ ]; [ contradiction | ].
    cbn [negb]. rewrite Hxi. reflexivity.
Qed.

(** X13.  When the camera is enabled and acquiring and the stop call of
    the disabling fails, [_disabled_camera] never runs its body: whatever
    the body is, the outcome is that of re-enabling the camera from the
    state the failed abort left (flag set back), the stop error leaving
    the block if the re-enabling returns and the error of the re-enabling
    otherwise. *)
Theorem disabled_camera_skips_body_when_stop_fails {A : Type}
    (body : M (camera dev) A) (c : camera dev) (e : exn) (d : dev) :
  enabled c = true ->
  _acquiring c = true ->
  xi (_handle c) stop_acquisition = (Err e, d) ->
  _disabled_camera body c =
    match enable (with_acquiring true
                    (with_handle d (mkEvent stop_acquisition (Err e) false)
                       (with_acquiring false c))) with
    | (Ret _, c2) => (Raise e, c2)
    | (Raise e2, c2) => (Raise e2, c2)
    end.
Proof.
  intros Hen Hacq Hxi.
  rewrite (disabled_camera_on body c Hen).
  unfold try_finally, bind at 1. unfold disable, _do_disable, bind at 1.
  rewrite (abort_acquiring c (Err e) d Hacq Hxi).
  destruct (enable _) as [[b | e2] c2]; reflexivity.
Qed.

Lemma bind_ret_keeps {A B : Type} (P : camera dev -> Prop) (m : M (camera dev) A)
    (k : A -> M (camera dev) B) (c c' : camera dev) (b : B) :
  preserves P m -> P c ->
  bind m k c = (Ret b, c') ->
  exists a c1, P c1 /\ k a c1 = (Ret b, c').
Proof.
  intros Hm Hc. unfold bind. specialize (Hm c Hc).
  destruct (m c) as [[a | e] c1]; [ | discriminate ].
  intros H. exists a, c1. auto.
Qed.

Lemma probe_temperature_ret (name : string) (c c' : camera dev) :
  probe_temperature name c = (Ret tt, c') ->
  exists r,
    reading_or_absent r /\
    map exchange (calls c') = map exchange (calls c) ++ [(get_temp name, r)] /\
    settings c' = settings c ++ registered name r.
Proof.
  unfold probe_temperature, bind, try_except, sdk, ret, raise, modify.
  destruct (xi (_handle c) (get_temp name)) as [[x | e] d].
  - intros H. injection H as <-. exists (Ok x). cbn.
    rewrite map_app. repeat split.
  - destruct e as [[s | ] | | | | | | | | | | | | ]; try discriminate.
    destruct (Z.eqb_spec s _XI_NOT_SUPPORTED) as [-> | Hs1]; cbn [negb andb].
    + intros H. injection H as <-. exists (Err (Xi_error (Some _XI_NOT_SUPPORTED))).
      cbn. rewrite map_app, app_nil_r. repeat split. left. reflexivity.
    + destruct (Z.eqb_spec s _XI_NOT_IMPLEMENTED) as [-> | Hs2]; cbn [negb];
        [ | discriminate ].
      intros H. injection H as <-. exists (Err (Xi_error (Some _XI_NOT_IMPLEMENTED))).
      cbn. rewrite map_app, app_nil_r. repeat split. right. reflexivity.
Qed.

(** X10.  An [initialize] that returns has ended with exactly four
    temperature probes, of the chip, the housing, the back side of the
    housing and the sensor board in this order, each answered with a
    reading or with the not-supported or not-implemented status; the
    settings it registered are, in the same order, the sensors that
    gave a reading, and nothing else. *)
Theorem initialize_registers_answering_sensors (depth : nat) (c c' : camera dev) :
  initialize depth c = (Ret tt, c') ->
  exists before r1 r2 r3 r4,
    map exchange (calls c') =
      map exchange (calls c) ++ before ++
        [(get_temp "chip_temp", r1); (get_temp "hous_temp", r2);
         (get_temp "hous_back_side_temp", r3); (get_temp "sensor_board_temp", r4)] /\
    settings c' =
      settings c ++ registered "chip_temp" r1 ++ registered "hous_temp" r2
        ++ registered "hous_back_side_temp" r3 ++ registered "sensor_board_temp" r4 /\
    reading_or_absent r1 /\ reading_or_absent r2 /\
    reading_or_absent r3 /\ reading_or_absent r4.
Proof.
  intros Hrun.
  set (P := fun s : camera dev =>
              settings s = settings c /\
              exists before, map exchange (calls s) = map exchange (calls c) ++ before).
  assert (P_handle : forall d ev s, P s -> P (with_handle d ev s)).
  { intros d ev s [Hs [before Hb]]. split; [ exact Hs | ].
    exists (before ++ [exchange ev]). cbn. rewrite map_app, Hb, <- app_assoc. reflexivity. }
  assert (P0 : P c).
  { split; [ reflexivity | ]. exists []. rewrite app_nil_r. reflexivity. }
  assert (Hsdk : forall q, preserves P (sdk q)).
  { intros q. apply preserves_sdk, P_handle. }
  unfold initialize, set_roi in Hrun.
  apply (bind_ret_keeps P) in Hrun; [ | apply Hsdk | exact P0 ].
  destruct Hrun as (n & c1 & P1 & Hrun).
  apply (bind_ret_keeps P) in Hrun; [ | apply preserves_gets | exact P1 ].
  destruct Hrun as (sn & c2 & P2 & Hrun).
  apply (bind_ret_keeps P) in Hrun; [ | | exact P2 ].
  2:{ destruct sn; [ apply Hsdk | ].
      destruct (n >? 1); [ apply preserves_raise | apply Hsdk ]. }
  destruct Hrun as (u & c3 & P3 & Hrun).
  apply (bind_ret_keeps P) in Hrun; [ | apply Hsdk | exact P3 ].
  destruct Hrun as (wmax & c4 & P4 & Hrun).
  apply (bind_ret_keeps P) in Hrun; [ | apply Hsdk | exact P4 ].
  destruct Hrun as (xmax & c5 & P5 & Hrun).
  apply (bind_ret_keeps P) in Hrun; [ | apply Hsdk | exact P5 ].
  destruct Hrun as (hmax & c6 & P6 & Hrun).
  apply (bind_ret_keeps P) in Hrun; [ | apply Hsdk | exact P6 ].
  destruct Hrun as (ymax & c7 & P7 & Hrun).
  apply (bind_ret_keeps P) in Hrun;
    [ | apply preserves_modify; intros s Hs; exact Hs | exact P7 ].
  destruct Hrun as (u1 & c8 & P8 & Hrun).
  apply (bind_ret_keeps P) in Hrun; [ | apply preserves_gets | exact P8 ].
  destruct Hrun as (shape & c9 & P9 & Hrun).
  apply (bind_ret_keeps P) in Hrun;
    [ | apply preserves_modify; intros s Hs; exact Hs | exact P9 ].
  destruct Hrun as (u2 & c10 & P10 & Hrun).
  apply (bind_ret_keeps P) in Hrun; [ | apply preserves_gets | exact P10 ].
  destruct Hrun as (whole & c11 & P11 & Hrun).
  apply (bind_ret_keeps P) in Hrun;
    [ | apply preserves_set_roi; auto | exact P11 ].
  destruct Hrun as (b1 & c12 & P12 & Hrun).
  apply (bind_ret_keeps P) in Hrun; [ | | exact P12 ].
  2:{ apply (confined_preserves P (fun _ => true)).
      apply confined_set_trigger; auto. }
  destruct Hrun as (u3 & c13 & P13 & Hrun).
  unfold bind in Hrun.
  destruct (probe_temperature "chip_temp" c13) as [[[] | e] s1] eqn:H1; [ | discriminate ].
  destruct (probe_temperature "hous_temp" s1) as [[[] | e] s2] eqn:H2; [ | discriminate ].
  destruct (probe_temperature "hous_back_side_temp" s2) as [[[] | e] s3] eqn:H3;
    [ | discriminate ].
  apply probe_temperature_ret in H1, H2, H3, Hrun.
  destruct H1 as (r1 & A1 & C1 & S1), H2 as (r2 & A2 & C2 & S2),
           H3 as (r3 & A3 & C3 & S3), Hrun as (r4 & A4 & C4 & S4).
  destruct P13 as [S0 [before C0]].
  exists before, r1, r2, r3, r4. repeat split; auto.
  - rewrite C4, C3, C2, C1, C0, <- !app_assoc. reflexivity.
  - rewrite S4, S3, S2, S1, S0, <- !app_assoc. reflexivity.
Qed.

(** X17.  With no serial number given and more than one device reported,
    [initialize] raises [TypeError] having asked nothing but the number
    of devices: no device is opened and no attribute is written. *)
Theorem initialize_refuses_ambiguous_device (depth : nat) (c : camera dev)
    (n : Z) (d : dev) :
  xi (_handle c) get_number_devices = (Ok n, d) ->
  _serial_number c = None ->
  n > 1 ->
  initialize depth c =
    (Raise (TypeError "more than one Ximea camera found but the serial_number argument was not specified"),
     with_handle d (mkEvent get_number_devices (Ok n) (_acquiring c)) c).
Proof.
  intros Hxi Hnone Hmany.
  unfold initialize. unfold bind at 1. unfold sdk at 1. rewrite Hxi.
  unfold bind at 1. unfold gets at 1. cbn [_serial_number with_handle].
  rewrite Hnone. unfold bind at 1.
  assert (Hgt : (n >? 1) = true) by (apply Z.gtb_lt; lia).
  rewrite Hgt. reflexivity.
Qed.

End StartupProperties.

Lemma quantize_rounds_to_grid_witness :
  quantize 7 0 (bench obliging false false full_frame software_once)
  = (Raise ZeroDivisionError, bench obliging false false full_frame software_once)
  /\ quantize 1000 4 (bench obliging false false full_frame software_once)
     = (Ret 1000, bench obliging false false full_frame software_once)
  /\ (exists x',
        quantize 1001 4 (bench obliging false false full_frame software_once)
        = (Ret x', bench obliging false false full_frame software_once) /\
        rounded_to_grid 1001 x' 4 /\
        quantize x' 4 (bench obliging false false full_frame software_once)
        = (Ret x', bench obliging false false full_frame software_once))
  /\ fst (correct_axis 1000 width get_width_increment set_width
            (bench obliging false false full_frame software_once))
     = Raise ZeroDivisionError.
Proof.
  split; [ | split; [ | split ] ].
  - apply (proj1 (quantize_rounds_to_grid 7 0
                    (bench obliging false false full_frame software_once))).
    reflexivity.
  - apply (proj1 (proj2 (quantize_rounds_to_grid 1000 4
                           (bench obliging false false full_frame software_once)))).
    + discriminate.
    + reflexivity.
  - apply (proj1 (proj2 (proj2 (proj2 (quantize_rounds_to_grid 1001 4
                           (bench obliging false false full_frame software_once)))))).
    + discriminate.
    + reflexivity.
  - rewrite (proj2 (proj2 (proj2 (proj2 (proj2 (quantize_rounds_to_grid 1000 0
                             (bench obliging false false full_frame software_once))))))
               width get_width_increment set_width (mkScripted obliging 1)).
    + reflexivity.
    + discriminate.
    + reflexivity.
Defined.

Lemma TRIGGER_TABLE_keys_witness :
  snd ("XI_TRG_SOFTWARE", "XI_TRG_SEL_FRAME_START") = "XI_TRG_SEL_FRAME_START"
  /\ forall ttype' tmode',
       dict_get trigger_key_eqb (ttype', tmode') TRIGGER_TABLE
       = Some ("XI_TRG_SOFTWARE", "XI_TRG_SEL_FRAME_START") ->
       (ttype', tmode') = (SOFTWARE, ONCE).
Proof.
  apply (proj2 (TRIGGER_TABLE_keys SOFTWARE ONCE
                  ("XI_TRG_SOFTWARE", "XI_TRG_SEL_FRAME_START"))).
  vm_compute. reflexivity.
Defined.

Lemma disabled_camera_skips_body_when_stop_fails_witness :
  fst (_disabled_camera (sdk (set_width 640))
         (bench (refusing (fun _ => true) (Xi_error (Some 1))) true true
            full_frame software_once))
  = Raise (Xi_error (Some 1))
  /\ map request
       (calls (snd (_disabled_camera (sdk (set_width 640))
                      (bench (refusing (fun _ => true) (Xi_error (Some 1))) true true
                         full_frame software_once))))
     = [stop_acquisition; stop_acquisition].
Proof.
  rewrite (disabled_camera_skips_body_when_stop_fails (sdk (set_width 640))
             (bench (refusing (fun _ => true) (Xi_error (Some 1))) true true
                full_frame software_once)
             (Xi_error (Some 1))
             (mkScripted (refusing (fun _ => true) (Xi_error (Some 1))) 1)
             eq_refl eq_refl eq_refl).
  split; vm_compute; reflexivity.
Defined.

Lemma initialize_registers_answering_sensors_witness :
  exists before r1 r2 r3 r4,
    map exchange (calls (snd (initialize 5
                                (XimeaCamera_attributes None
                                   (mkScripted no_housing_sensor 0) software_once)))) =
      map exchange [] ++ before ++
        [(get_temp "chip_temp", r1); (get_temp "hous_temp", r2);
         (get_temp "hous_back_side_temp", r3); (get_temp "sensor_board_temp", r4)] /\
    settings (snd (initialize 5
                     (XimeaCamera_attributes None
                        (mkScripted no_housing_sensor 0) software_once))) =
      [] ++ registered "chip_temp" r1 ++ registered "hous_temp" r2
        ++ registered "hous_back_side_temp" r3 ++ registered "sensor_board_temp" r4 /\
    reading_or_absent r1 /\ reading_or_absent r2 /\
    reading_or_absent r3 /\ reading_or_absent r4.
Proof.
  apply (initialize_registers_answering_sensors 5
           (XimeaCamera_attributes None (mkScripted no_housing_sensor 0) software_once)).
  vm_compute. reflexivity.
Defined.

Lemma initialize_refuses_ambiguous_device_witness :
  fst (initialize 5 (XimeaCamera_attributes None (mkScripted two_cameras 0) software_once))
  = Raise (TypeError "more than one Ximea camera found but the serial_number argument was not specified").
Proof.
  rewrite (initialize_refuses_ambiguous_device 5
             (XimeaCamera_attributes None (mkScripted two_cameras 0) software_once)
             2 (mkScripted two_cameras 1)).
  - reflexivity.
  - reflexivity.
  - reflexivity.
  - lia.
Defined.
